(** * TransactionModel: the data-access layer of [app/models/transaction_model.py]

    A shallow embedding of the [TransactionModel] class and of the parts of
    its collaborators (the document collection, [bson.ObjectId], the logger,
    the clock, the timestamp helper and the version lookup) that its methods
    use, followed by the properties of the methods.

    Python values are an inductive type, documents are association lists in
    key order, a method is a function from the state of the world to an
    outcome (a returned value or a raised exception) and a new world. *)

From Stdlib Require Import String Ascii List ZArith Bool Arith Lia.
Import ListNotations.
Local Open Scope string_scope.
Local Open Scope list_scope.

(** ** Values *)

(** [bson.ObjectId]: twelve bytes, kept as the 24 lower-case hexadecimal
    digits that [str] prints. *)
Inductive oid : Type := Oid (hex : string).

Definition oid_hex (o : oid) : string := match o with Oid h => h end.

Definition oid_eqb (a b : oid) : bool := String.eqb (oid_hex a) (oid_hex b).

(** An instance of [bson.ObjectId] as its constructor can leave it: the
    twelve bytes of an identifier, or fewer bytes (kept as the digits [str]
    prints), which the constructor lets through when the 24 characters it is
    given hold white space.  The store and the driver only ever produce the
    first kind. *)
Inductive object_id : Type :=
| Twelve (o : oid)
| Short (hex : string).

Coercion Twelve : oid >-> object_id.

Definition object_id_hex (b : object_id) : string :=
  match b with
  | Twelve o => oid_hex o
  | Short h => h
  end.

Definition object_id_eqb (a b : object_id) : bool :=
  match a, b with
  | Twelve x, Twelve y => oid_eqb x y
  | Short x, Short y => String.eqb x y
  | _, _ => false
  end.

(** The Python and BSON values the layer handles.  [VDate] is an instant as
    the store keeps it; [VDict] keeps its keys in insertion order, as Python
    dictionaries and BSON documents do. *)
#[warnings="-register-all"]
Inductive value : Type :=
| VNone
| VBool (b : bool)
| VInt (z : Z)
| VStr (s : string)
| VOid (o : object_id)
| VDate (t : Z)
| VList (l : list value)
| VDict (d : list (string * value)).

Definition dict : Type := list (string * value).

(** Structural equality, as the store compares values. *)
Fixpoint value_eqb (a b : value) {struct a} : bool :=
  match a, b with
  | VNone, VNone => true
  | VBool x, VBool y => Bool.eqb x y
  | VInt x, VInt y => Z.eqb x y
  | VStr x, VStr y => String.eqb x y
  | VOid x, VOid y => object_id_eqb x y
  | VDate x, VDate y => Z.eqb x y
  | VList l, VList m =>
      (fix list_eqb (l m : list value) {struct l} : bool :=
         match l, m with
         | [], [] => true
         | x :: l', y :: m' => value_eqb x y && list_eqb l' m'
         | _, _ => false
         end) l m
  | VDict d, VDict e =>
      (fix dict_eqb (d e : list (string * value)) {struct d} : bool :=
         match d, e with
         | [], [] => true
         | (k, x) :: d', (j, y) :: e' =>
             String.eqb k j && value_eqb x y && dict_eqb d' e'
         | _, _ => false
         end) d e
  | _, _ => false
  end.

Definition dict_eqb (d e : dict) : bool := value_eqb (VDict d) (VDict e).

Definition opt_value_eqb (a b : option value) : bool :=
  match a, b with
  | None, None => true
  | Some x, Some y => value_eqb x y
  | _, _ => false
  end.

(** Induction over values, through the lists and dictionaries inside. *)
Section ValueInduction.
Variable P : value -> Prop.
Hypothesis HNone : P VNone.
Hypothesis HBool : forall b, P (VBool b).
Hypothesis HInt : forall z, P (VInt z).
Hypothesis HStr : forall s, P (VStr s).
Hypothesis HOid : forall o, P (VOid o).
Hypothesis HDate : forall t, P (VDate t).
Hypothesis HList : forall l, Forall P l -> P (VList l).
Hypothesis HDict : forall d, Forall (fun kv => P (snd kv)) d -> P (VDict d).

Fixpoint value_nested_ind (v : value) : P v :=
  match v with
  | VNone => HNone
  | VBool b => HBool b
  | VInt z => HInt z
  | VStr s => HStr s
  | VOid o => HOid o
  | VDate t => HDate t
  | VList l =>
      HList l
        ((fix go (l : list value) : Forall P l :=
            match l with
            | [] => Forall_nil P
            | x :: l' => Forall_cons x (value_nested_ind x) (go l')
            end) l)
  | VDict d =>
      HDict d
        ((fix go (d : list (string * value))
            : Forall (fun kv => P (snd kv)) d :=
            match d with
            | [] => Forall_nil _
            | kv :: d' =>
                Forall_cons kv (value_nested_ind (snd kv)) (go d')
            end) d)
  end.
End ValueInduction.

(** Python truthiness ([if x:]). *)
Definition truthy (v : value) : bool :=
  match v with
  | VNone => false
  | VBool b => b
  | VInt z => negb (Z.eqb z 0)
  | VStr s => negb (String.eqb s "")
  | VOid _ => true
  | VDate _ => true
  | VList l => match l with [] => false | _ => true end
  | VDict d => match d with [] => false | _ => true end
  end.

(** ** Dictionaries *)

(** [d.get(k)] *)
Fixpoint dict_get (k : string) (d : dict) : option value :=
  match d with
  | [] => None
  | (j, v) :: d' => if String.eqb k j then Some v else dict_get k d'
  end.

(** [d[k] = v]: an existing key keeps its place, a new key goes last. *)
Fixpoint dict_set (k : string) (v : value) (d : dict) : dict :=
  match d with
  | [] => [(k, v)]
  | (j, w) :: d' =>
      if String.eqb k j then (j, v) :: d' else (j, w) :: dict_set k v d'
  end.

(** [d.pop(k, None)], the popped value dropped. *)
Definition dict_pop (k : string) (d : dict) : dict :=
  filter (fun kv => negb (String.eqb k (fst kv))) d.

(** [d.get(k, default)] *)
Definition dict_get_default (k : string) (default : value) (d : dict) : value :=
  match dict_get k d with Some v => v | None => default end.

(** ** Identifiers *)

Definition is_hex_digit (c : ascii) : bool :=
  let n := nat_of_ascii c in
  (((48 <=? n) && (n <=? 57)) || ((97 <=? n) && (n <=? 102))
   || ((65 <=? n) && (n <=? 70)))%nat.

Definition lower_hex (c : ascii) : ascii :=
  let n := nat_of_ascii c in
  if ((65 <=? n) && (n <=? 70))%nat then ascii_of_nat (n + 32) else c.

Fixpoint string_forallb (f : ascii -> bool) (s : string) : bool :=
  match s with
  | EmptyString => true
  | String c s' => f c && string_forallb f s'
  end.

Fixpoint string_map (f : ascii -> ascii) (s : string) : string :=
  match s with
  | EmptyString => EmptyString
  | String c s' => String (f c) (string_map f s')
  end.

(** Exceptions the methods can meet.  [PyMongoError] is the only class the
    methods catch; [bson.errors.InvalidId] and [bson.errors.InvalidDocument]
    derive from [BSONError], not from [PyMongoError], and [OverflowError] is
    a builtin. *)
Inductive exn : Type :=
| InvalidId (s : string)
| KeyError (k : string)
| AttributeError (what : string)
| OverflowError (msg : string)
| InvalidDocument (msg : string)
| PyMongoError (msg : string).

Inductive outcome (A : Type) : Type :=
| Return (a : A)
| Raise (e : exn).
(* The type expected of [Return a] is read before [a], so that an [oid] is
   taken as the [object_id] it is. *)
Arguments Return {A} & a.
Arguments Raise {A} e.

(** ASCII white space, as [bytes.fromhex] skips it. *)
Definition is_space (c : ascii) : bool :=
  let n := nat_of_ascii c in
  ((n =? 32) || ((9 <=? n) && (n <=? 13)))%nat.

(** [bytes.fromhex(s)], the bytes read given as their lower-case digits:
    pairs of hexadecimal digits, with white space allowed before, between
    and after the pairs but not inside one; [None] is its [ValueError]. *)
Fixpoint fromhex (s : string) : option string :=
  match s with
  | EmptyString => Some EmptyString
  | String c s' =>
      if is_space c then fromhex s'
      else if is_hex_digit c then
        match s' with
        | String c' s'' =>
            if is_hex_digit c' then
              option_map
                (fun r => String (lower_hex c) (String (lower_hex c') r))
                (fromhex s'')
            else None
        | EmptyString => None
        end
      else None
  end.

(** [ObjectId(s)] on a string: a string of 24 characters that
    [bytes.fromhex] reads, else [InvalidId].  The bytes are not counted:
    24 hexadecimal digits give the twelve bytes of an identifier, white
    space among the 24 characters gives fewer. *)
Definition ObjectId (s : string) : outcome object_id :=
  if (String.length s =? 24)%nat then
    match fromhex s with
    | Some h =>
        if (String.length h =? 24)%nat then Return (Twelve (Oid h))
        else Return (Short h)
    | None => Raise (InvalidId s)
    end
  else Raise (InvalidId s).

(** ** The world around a call *)

(** What outlives a call: the [transactions] collection in its natural
    order, the lines given to [logger.error], and the dictionaries of the
    caller that a method receives by reference. *)
Record world : Type := mkWorld {
  transactions : list dict;
  logged : list string;
  heap : list dict
}.

(** What the surroundings answer during one call: whether the store call
    raises (and with which message), the clock, the identifier the driver
    generates for an inserted document, the version lookup of
    [TransactionVersionModel.get_version], what [str] prints for values
    other than identifiers and strings, and what the driver's encoder makes
    of an [ObjectId] of fewer than twelve bytes (it writes twelve bytes
    where fewer are, or fails: the source does not say which). *)
Record env : Type := mkEnv {
  fault : option string;
  now : Z;
  fresh_oid : oid;
  get_version : value -> option dict;
  repr_of : value -> string;
  short_id : string -> outcome oid
}.

(** [str(v)] *)
Definition py_str (e : env) (v : value) : string :=
  match v with
  | VOid o => object_id_hex o
  | VStr s => s
  | _ => repr_of e v
  end.

(** ** Methods as state transformers with exceptions *)

Definition M (A : Type) : Type := world -> outcome A * world.

Definition ret {A : Type} (a : A) : M A := fun w => (Return a, w).

Definition raise {A : Type} (x : exn) : M A := fun w => (Raise x, w).

Definition bind {A B : Type} (m : M A) (k : A -> M B) : M B :=
  fun w =>
    match m w with
    | (Return a, w') => k a w'
    | (Raise x, w') => (Raise x, w')
    end.

Definition lift {A : Type} (o : outcome A) : M A := fun w => (o, w).

Notation "x <- m ;; k" := (bind m (fun x => k))
  (at level 61, m at next level, right associativity).
Notation "m ;;; k" := (bind m (fun _ => k))
  (at level 61, right associativity).

(** [try: body except PyMongoError as e: handler(str(e))]: every other
    exception passes through. *)
Definition try_except {A : Type} (body : M A) (handler : string -> M A) : M A :=
  fun w =>
    match body w with
    | (Raise (PyMongoError msg), w') => handler msg w'
    | r => r
    end.

Definition logger_error (line : string) : M unit :=
  fun w => (Return tt, mkWorld (transactions w) (logged w ++ [line]) (heap w)).

(** [d[k]] *)
Definition getitem (k : string) (d : dict) : outcome value :=
  match dict_get k d with
  | Some v => Return v
  | None => Raise (KeyError k)
  end.

(** ** What the driver can send

    Before a document goes to the store the driver encodes it as BSON, and
    raises where it cannot: [OverflowError] on an integer outside 64 bits,
    [InvalidDocument] on a key with a null character.  Neither is a
    [PyMongoError].  Sizes are not modelled: every document is taken to be
    within the limit of the store. *)

Definition int64 (z : Z) : bool :=
  ((-9223372036854775808 <=? z) && (z <=? 9223372036854775807))%Z.

Definition has_nul (k : string) : bool :=
  negb (string_forallb (fun c => negb (Ascii.eqb c zero)) k).

Definition overflow_error : exn :=
  OverflowError "MongoDB can only handle up to 8-byte ints".

Definition invalid_key : exn :=
  InvalidDocument "Key names must not contain the NULL byte".

(** The value as the store receives it, or the exception of the encoder.
    Documents and arrays are encoded entry by entry, a key before its
    value. *)
Fixpoint bson_encode (e : env) (v : value) {struct v} : outcome value :=
  match v with
  | VInt z => if int64 z then Return v else Raise overflow_error
  | VOid (Short h) =>
      match short_id e h with
      | Return o => Return (VOid (Twelve o))
      | Raise x => Raise x
      end
  | VList l =>
      match
        (fix encode_items (l : list value) : outcome (list value) :=
           match l with
           | [] => Return []
           | x :: l' =>
               match bson_encode e x with
               | Raise y => Raise y
               | Return x' =>
                   match encode_items l' with
                   | Raise y => Raise y
                   | Return r => Return (x' :: r)
                   end
               end
           end) l
      with
      | Return l' => Return (VList l')
      | Raise y => Raise y
      end
  | VDict d =>
      match
        (fix encode_entries (d : list (string * value))
           : outcome (list (string * value)) :=
           match d with
           | [] => Return []
           | (k, x) :: d' =>
               if has_nul k then Raise invalid_key
               else
                 match bson_encode e x with
                 | Raise y => Raise y
                 | Return x' =>
                     match encode_entries d' with
                     | Raise y => Raise y
                     | Return r => Return ((k, x') :: r)
                     end
                 end
           end) d
      with
      | Return d' => Return (VDict d')
      | Raise y => Raise y
      end
  | _ => Return v
  end.

(** A document, encoded. *)
Fixpoint encode_fields (e : env) (d : dict) : outcome dict :=
  match d with
  | [] => Return []
  | (k, x) :: d' =>
      if has_nul k then Raise invalid_key
      else
        match bson_encode e x with
        | Raise y => Raise y
        | Return x' =>
            match encode_fields e d' with
            | Raise y => Raise y
            | Return r => Return ((k, x') :: r)
            end
        end
  end.

(** A value the encoder passes as it is: its integers fit 64 bits, its keys
    have no null character, its identifiers have twelve bytes. *)
Fixpoint encodable (v : value) {struct v} : bool :=
  match v with
  | VInt z => int64 z
  | VOid (Short _) => false
  | VList l =>
      (fix items (l : list value) : bool :=
         match l with
         | [] => true
         | x :: l' => encodable x && items l'
         end) l
  | VDict d =>
      (fix entries (d : list (string * value)) : bool :=
         match d with
         | [] => true
         | (k, x) :: d' => negb (has_nul k) && encodable x && entries d'
         end) d
  | _ => true
  end.

Definition encodable_fields (d : dict) : bool := encodable (VDict d).

(** ** The document collection

    The operations of [pymongo.collection.Collection] the methods call, on
    the list of stored documents.  A store call that the surroundings make
    fail raises [PyMongoError] and leaves the collection as it was; an update
    the server refuses is a [PyMongoError] too ([WriteError] and
    [DuplicateKeyError] derive from it). *)

(** The filter [{field: q}] for a scalar [q]: the field equals [q], or is an
    array with an element equal to [q]. *)
Definition matches (field : string) (q : value) (d : dict) : bool :=
  match dict_get field d with
  | Some v =>
      value_eqb v q
      || match v with
         | VList l => existsb (fun x => value_eqb x q) l
         | _ => false
         end
  | None => false
  end.

(** A dotted update path, cut at the dots. *)
Fixpoint split_path (s : string) (cur : string) : list string :=
  match s with
  | EmptyString => [cur]
  | String c s' =>
      if Ascii.eqb c "."%char then cur :: split_path s' ""
      else split_path s' (cur ++ String c "")
  end.

Definition is_digit (c : ascii) : bool :=
  let n := nat_of_ascii c in ((48 <=? n) && (n <=? 57))%nat.

Fixpoint digits_value (s : string) (acc : nat) : nat :=
  match s with
  | EmptyString => acc
  | String c s' => digits_value s' (10 * acc + (nat_of_ascii c - 48))
  end.

(** A path component that addresses an array position: decimal digits with
    no leading zero. *)
Definition index_of (k : string) : option nat :=
  match k with
  | EmptyString => None
  | String c rest =>
      if string_forallb is_digit k
         && (negb (Ascii.eqb c "0"%char) || String.eqb rest "")
      then Some (digits_value k 0)
      else None
  end.

(** Writing position [i] of an array, the gap padded with nulls. *)
Fixpoint list_put (i : nat) (x : value) (l : list value) : list value :=
  match i, l with
  | O, [] => [x]
  | O, _ :: l' => x :: l'
  | S i', [] => VNone :: list_put i' x []
  | S i', y :: l' => y :: list_put i' x l'
  end.

(** [$set] of one path below the value [cur] ([None]: nothing there yet).
    Missing documents on the way are created; a scalar on the way, or an
    empty component, is a write error ([None]). *)
Fixpoint set_at (p : list string) (v : value) (cur : option value)
  : option value :=
  match p with
  | [] => Some v
  | k :: rest =>
      if String.eqb k "" then None
      else
        match cur with
        | None =>
            option_map (fun x => VDict [(k, x)]) (set_at rest v None)
        | Some (VDict d) =>
            option_map (fun x => VDict (dict_set k x d))
                       (set_at rest v (dict_get k d))
        | Some (VList l) =>
            match index_of k with
            | Some i =>
                option_map (fun x => VList (list_put i x l))
                           (set_at rest v (nth_error l i))
            | None => None
            end
        | Some _ => None
        end
  end.

Definition set_field (key : string) (v : value) (d : dict) : option dict :=
  match set_at (split_path key "") v (Some (VDict d)) with
  | Some (VDict d') => Some d'
  | _ => None
  end.

Fixpoint is_prefix (p q : list string) : bool :=
  match p, q with
  | [], _ => true
  | _ :: _, [] => false
  | a :: p', b :: q' => String.eqb a b && is_prefix p' q'
  end.

(** Two paths of one update may not lie on one another. *)
Fixpoint no_conflicts (ps : list (list string)) : bool :=
  match ps with
  | [] => true
  | p :: ps' =>
      forallb (fun q => negb (is_prefix p q || is_prefix q p)) ps'
      && no_conflicts ps'
  end.

Fixpoint set_fields (fields : dict) (d : dict) : option dict :=
  match fields with
  | [] => Some d
  | (key, v) :: fields' =>
      match set_field key v d with
      | Some d' => set_fields fields' d'
      | None => None
      end
  end.

(** The update documents the methods send. *)
Inductive update_spec : Type :=
| Set_ (fields : dict)                   (* {"$set": fields} *)
| Push (field : string) (v : value)      (* {"$push": {field: v}} *)
| Pull (field : string) (v : value).     (* {"$pull": {field: v}} *)

(** One update applied to one document; [None] is a write error.  [_id] is
    immutable: an update that would change it is refused. *)
Definition apply_update (u : update_spec) (d : dict) : option dict :=
  let after :=
    match u with
    | Set_ fields =>
        if no_conflicts (map (fun kv => split_path (fst kv) "") fields)
        then set_fields fields d
        else None
    | Push field v =>
        match dict_get field d with
        | None => Some (dict_set field (VList [v]) d)
        | Some (VList l) => Some (dict_set field (VList (l ++ [v])) d)
        | Some _ => None
        end
    | Pull field v =>
        match dict_get field d with
        | None => Some d
        | Some (VList l) =>
            Some (dict_set field
                    (VList (filter (fun x => negb (value_eqb x v)) l)) d)
        | Some _ => None
        end
    end in
  match after with
  | Some d' =>
      if opt_value_eqb (dict_get "_id" d') (dict_get "_id" d)
      then Some d' else None
  | None => None
  end.

(** The first matching document updated in place; with it the
    [modified_count], which is 1 only when the document changed. *)
Fixpoint update_first (m : dict -> bool) (f : dict -> option dict)
    (docs : list dict) : option (list dict * Z) :=
  match docs with
  | [] => Some ([], 0%Z)
  | d :: rest =>
      if m d then
        match f d with
        | Some d' => Some (d' :: rest, if dict_eqb d' d then 0%Z else 1%Z)
        | None => None
        end
      else
        match update_first m f rest with
        | Some (rest', n) => Some (d :: rest', n)
        | None => None
        end
  end.

(** The first matching document removed; with it the [deleted_count]. *)
Fixpoint delete_first (m : dict -> bool) (docs : list dict)
  : list dict * Z :=
  match docs with
  | [] => ([], 0%Z)
  | d :: rest =>
      if m d then (rest, 1%Z)
      else let '(rest', n) := delete_first m rest in (d :: rest', n)
  end.

Definition set_transactions (docs : list dict) (w : world) : world :=
  mkWorld docs (logged w) (heap w).

(** A store call: it raises when the surroundings say so (no server, no
    connection), else it runs: the driver encodes what it sends, then the
    store answers. *)
Definition store_call {A : Type} (e : env) (run : M A) : M A :=
  match fault e with
  | Some msg => raise (PyMongoError msg)
  | None => run
  end.

Definition write_error : string := "WriteError".
Definition duplicate_key_error : string := "DuplicateKeyError".

(** The filter [{field: q}] as the store receives it. *)
Definition encode_filter (e : env) (field : string) (q : value)
  : outcome value :=
  if has_nul field then Raise invalid_key else bson_encode e q.

(** An update document as the store receives it. *)
Definition encode_update (e : env) (u : update_spec) : outcome update_spec :=
  match u with
  | Set_ fields =>
      match encode_fields e fields with
      | Return fields' => Return (Set_ fields')
      | Raise x => Raise x
      end
  | Push field v =>
      if has_nul field then Raise invalid_key
      else
        match bson_encode e v with
        | Return v' => Return (Push field v')
        | Raise x => Raise x
        end
  | Pull field v =>
      if has_nul field then Raise invalid_key
      else
        match bson_encode e v with
        | Return v' => Return (Pull field v')
        | Raise x => Raise x
        end
  end.

(** [collection.find_one({field: q})] *)
Definition find_one (e : env) (field : string) (q : value)
  : M (option dict) :=
  store_call e
    (q' <- lift (encode_filter e field q) ;;
     fun w => (Return (find (matches field q') (transactions w)), w)).

(** [collection.find({field: q})], the cursor read to its end. *)
Definition find_all (e : env) (field : string) (q : value) : M (list dict) :=
  store_call e
    (q' <- lift (encode_filter e field q) ;;
     fun w => (Return (filter (matches field q') (transactions w)), w)).

(** [collection.insert_one(doc)], returning [inserted_id].  A document with
    no [_id] gets the generated one, in front. *)
Definition insert_one (e : env) (doc : dict) : M value :=
  let id := dict_get_default "_id" (VOid (fresh_oid e)) doc in
  let document :=
    match dict_get "_id" doc with
    | Some _ => doc
    | None => ("_id", id) :: doc
    end in
  store_call e
    (stored <- lift (encode_fields e document) ;;
     fun w =>
       if existsb (matches "_id" (dict_get_default "_id" id stored))
                  (transactions w)
       then (Raise (PyMongoError duplicate_key_error), w)
       else (Return id, set_transactions (transactions w ++ [stored]) w)).

(** [collection.update_one({field: q}, u).modified_count] *)
Definition update_one (e : env) (field : string) (q : value)
    (u : update_spec) : M Z :=
  store_call e
    (q' <- lift (encode_filter e field q) ;;
     u' <- lift (encode_update e u) ;;
     fun w =>
       match update_first (matches field q') (apply_update u')
                          (transactions w) with
       | Some (docs, n) => (Return n, set_transactions docs w)
       | None => (Raise (PyMongoError write_error), w)
       end).

(** [collection.delete_one({field: q}).deleted_count] *)
Definition delete_one (e : env) (field : string) (q : value) : M Z :=
  store_call e
    (q' <- lift (encode_filter e field q) ;;
     fun w =>
       let '(docs, n) := delete_first (matches field q') (transactions w) in
       (Return n, set_transactions docs w)).

(** ** Dictionaries held by the caller *)

(** A reference is a position in the heap.  A reference with nothing behind
    it stands for an argument that is no dictionary: using it as one raises
    [AttributeError]. *)
Definition deref (r : nat) : M dict :=
  fun w =>
    match nth_error (heap w) r with
    | Some d => (Return d, w)
    | None => (Raise (AttributeError "dict"), w)
    end.

Fixpoint list_replace {A : Type} (i : nat) (x : A) (l : list A) : list A :=
  match i, l with
  | _, [] => []
  | O, _ :: l' => x :: l'
  | S i', y :: l' => y :: list_replace i' x l'
  end.

Definition assign (r : nat) (d : dict) : M unit :=
  fun w =>
    (Return tt,
     mkWorld (transactions w) (logged w) (list_replace r d (heap w))).

(** [r.pop(k, None)], on the caller's object. *)
Definition pop (r : nat) (k : string) : M unit :=
  d <- deref r ;; assign r (dict_pop k d).

(** ** The timestamp helper *)

(** Modelled from the spec: [add_timestamps] of [app/utils/timestamps.py]
    is not among the sources.  Given a field map and a mode flag it returns
    the map augmented with [created_at] (create mode) or [updated_at]
    (update mode); the map it returns is the map it was given. *)
Definition add_timestamps (data : dict) (is_update : bool) (t : Z) : dict :=
  if is_update then dict_set "updated_at" (VDate t) data
  else dict_set "created_at" (VDate t) data.

(** Modelled from the spec: [add_timestamps] on a dictionary of the caller,
    which is all the source shows of it ([update_fields =
    add_timestamps(update_fields, is_update=True)]).  The map is augmented
    in place and its own reference returned. *)
Definition add_timestamps_ref (e : env) (r : nat) (is_update : bool)
  : M nat :=
  d <- deref r ;;
  assign r (add_timestamps d is_update (now e)) ;;;
  ret r.

(** ** The methods of [TransactionModel] *)

Definition get_transaction (e : env) (transaction_id : string)
  : M (option dict) :=
  try_except
    (id <- lift (ObjectId transaction_id) ;;
     transaction <- find_one e "_id" (VOid id) ;;
     match transaction with
     | Some t =>
         if truthy (VDict t) then
           i <- lift (getitem "_id" t) ;;
           let t1 := dict_set "_id" (VStr (py_str e i)) t in
           u <- lift (getitem "user_id" t1) ;;
           let t2 := dict_set "user_id" (VStr (py_str e u)) t1 in
           ret (Some t2)
         else ret (Some t)
     | None => ret None
     end)
    (fun msg =>
       logger_error ("Database error while getting transaction: " ++ msg) ;;;
       ret None).

Definition create_transaction (e : env) (user_id name base_file_path : string)
    (primary_asset_class secondary_asset_class : option string)
  : M (option string) :=
  try_except
    (uid <- lift (ObjectId user_id) ;;
     let transaction_data : dict :=
       [ ("user_id", VOid uid);
         ("name", VStr name);
         ("base_file_path", VStr base_file_path);
         ("version_number", VInt 0);
         ("base_file", VNone);
         ("preprocessed_file", VNone);
         ("column_rename_file", VNone);
         ("temp_changing_datatype_of_column", VNone);
         ("changed_datatype_of_column", VNone);
         ("are_all_steps_complete", VBool false);
         ("new_added_columns_datatype", VDict []);
         ("temp_rbi_rules_applied", VNone);
         ("final_rbi_rules_applied", VNone);
         ("cutoff_date", VNone) ] in
     let transaction_data :=
       match primary_asset_class with
       | Some c => dict_set "primary_asset_class" (VStr c) transaction_data
       | None => transaction_data
       end in
     let transaction_data :=
       match secondary_asset_class with
       | Some c => dict_set "secondary_asset_class" (VStr c) transaction_data
       | None => transaction_data
       end in
     let transaction_data := add_timestamps transaction_data false (now e) in
     inserted_id <- insert_one e transaction_data ;;
     ret (Some (py_str e inserted_id)))
    (fun msg =>
       logger_error ("Database error while creating transaction: " ++ msg) ;;;
       ret None).

Definition add_new_column_datatype (e : env)
    (transaction_id column_name datatype : string) : M bool :=
  try_except
    (id <- lift (ObjectId transaction_id) ;;
     modified_count <-
       update_one e "_id" (VOid id)
         (Set_ [ (("new_added_columns_datatype." ++ column_name)%string,
                  VStr datatype);
                 ("updated_at", VDate (now e)) ]) ;;
     ret (0 <? modified_count)%Z)
    (fun msg =>
       logger_error
         ("Database error while adding new column datatype: " ++ msg) ;;;
       ret false).

(** [update_fields] is the caller's dictionary, by reference. *)
Definition update_transaction (e : env) (transaction_id : string)
    (update_fields : nat) : M bool :=
  try_except
    (pop update_fields "_id" ;;;
     pop update_fields "user_id" ;;;
     update_fields <- add_timestamps_ref e update_fields true ;;
     id <- lift (ObjectId transaction_id) ;;
     fields <- deref update_fields ;;
     modified_count <- update_one e "_id" (VOid id) (Set_ fields) ;;
     ret (0 <? modified_count)%Z)
    (fun msg =>
       logger_error ("Database error while updating transaction: " ++ msg) ;;;
       ret false).

Definition delete_transaction (e : env) (transaction_id : string) : M bool :=
  try_except
    (id <- lift (ObjectId transaction_id) ;;
     deleted_count <- delete_one e "_id" (VOid id) ;;
     ret (0 <? deleted_count)%Z)
    (fun msg =>
       logger_error ("Database error while deleting transaction: " ++ msg) ;;;
       ret false).

(** The body of the loop of [get_transactions_by_user], for one document of
    the cursor. *)
Definition list_entry (e : env) (transaction : dict) : outcome dict :=
  match getitem "_id" transaction with
  | Raise x => Raise x
  | Return i =>
      let t1 := dict_set "_id" (VStr (py_str e i)) transaction in
      match getitem "user_id" t1 with
      | Raise x => Raise x
      | Return u =>
          let t2 := dict_set "user_id" (VStr (py_str e u)) t1 in
          if truthy (dict_get_default "base_file" VNone t2) then
            match getitem "base_file" t2 with
            | Raise x => Raise x
            | Return base_file =>
                match get_version e base_file with
                | Some base_version =>
                    if truthy (VDict base_version) then
                      Return
                        (dict_set "base_file_location"
                           (dict_get_default "files_path" (VStr "")
                              base_version) t2)
                    else Return t2
                | None => Return t2
                end
            end
          else Return (dict_set "base_file_location" (VStr "") t2)
      end
  end.

(** The loop: entries appended in cursor order, the first exception ends it. *)
Fixpoint list_entries (e : env) (cursor : list dict) : outcome (list dict) :=
  match cursor with
  | [] => Return []
  | transaction :: rest =>
      match list_entry e transaction with
      | Raise x => Raise x
      | Return t =>
          match list_entries e rest with
          | Raise x => Raise x
          | Return l => Return (t :: l)
          end
      end
  end.

Definition get_transactions_by_user (e : env) (user_id : string)
  : M (list dict) :=
  try_except
    (uid <- lift (ObjectId user_id) ;;
     cursor <- find_all e "user_id" (VOid uid) ;;
     lift (list_entries e cursor))
    (fun msg =>
       logger_error
         ("Database error while fetching transactions for user " ++ user_id
          ++ ": " ++ msg) ;;;
       ret []).

Definition set_base_file (e : env) (transaction_id version_id : string)
  : M bool :=
  try_except
    (let update_data : dict :=
       [ ("base_file", VStr version_id); ("updated_at", VDate (now e)) ] in
     id <- lift (ObjectId transaction_id) ;;
     modified_count <- update_one e "_id" (VOid id) (Set_ update_data) ;;
     ret (0 <? modified_count)%Z)
    (fun msg =>
       logger_error
         ("Database error while setting base_file for transaction "
          ++ transaction_id ++ ": " ++ msg) ;;;
       ret false).

Definition set_preprocessed_file (e : env)
    (transaction_id version_id : string) : M bool :=
  try_except
    (let update_data : dict :=
       [ ("preprocessed_file", VStr version_id);
         ("updated_at", VDate (now e)) ] in
     id <- lift (ObjectId transaction_id) ;;
     modified_count <- update_one e "_id" (VOid id) (Set_ update_data) ;;
     ret (0 <? modified_count)%Z)
    (fun msg =>
       logger_error
         ("Database error while setting preprocessed_file for transaction "
          ++ transaction_id ++ ": " ++ msg) ;;;
       ret false).

Definition change_transaction_name (e : env)
    (transaction_id new_name : string) : M bool :=
  try_except
    (let update_data : dict := [ ("name", VStr new_name) ] in
     let update_data := add_timestamps update_data true (now e) in
     id <- lift (ObjectId transaction_id) ;;
     modified_count <- update_one e "_id" (VOid id) (Set_ update_data) ;;
     ret (0 <? modified_count)%Z)
    (fun msg =>
       logger_error
         ("Database error while changing transaction name: " ++ msg) ;;;
       ret false).

Definition update_cutoff_date (e : env)
    (transaction_id cutoff_date : string) : M bool :=
  try_except
    (id <- lift (ObjectId transaction_id) ;;
     modified_count <-
       update_one e "_id" (VOid id)
         (Set_ [ ("cutoff_date", VStr cutoff_date);
                 ("updated_at", VDate (now e)) ]) ;;
     ret (0 <? modified_count)%Z)
    (fun msg =>
       logger_error ("Database error while updating cutoff date: " ++ msg) ;;;
       ret false).

Definition add_rule_application_root_version (e : env)
    (transaction_id version_id : string) : M bool :=
  try_except
    (id <- lift (ObjectId transaction_id) ;;
     modified_count <-
       update_one e "_id" (VOid id)
         (Push "rule_application_root_versions" (VStr version_id)) ;;
     ret (0 <? modified_count)%Z)
    (fun msg =>
       logger_error ("Error adding root version: " ++ msg) ;;; ret false).

Definition remove_rule_application_root_version (e : env)
    (transaction_id version_id : string) : M bool :=
  try_except
    (id <- lift (ObjectId transaction_id) ;;
     modified_count <-
       update_one e "_id" (VOid id)
         (Pull "rule_application_root_versions" (VStr version_id)) ;;
     ret (0 <? modified_count)%Z)
    (fun msg =>
       logger_error ("Error removing root version: " ++ msg) ;;; ret false).

(** ** The public contract as one dispatcher *)

Inductive operation : Type :=
| GetTransaction (transaction_id : string)
| CreateTransaction (user_id name base_file_path : string)
    (primary_asset_class secondary_asset_class : option string)
| AddNewColumnDatatype (transaction_id column_name datatype : string)
| UpdateTransaction (transaction_id : string) (update_fields : nat)
| DeleteTransaction (transaction_id : string)
| GetTransactionsByUser (user_id : string)
| SetBaseFile (transaction_id version_id : string)
| SetPreprocessedFile (transaction_id version_id : string)
| ChangeTransactionName (transaction_id new_name : string)
| UpdateCutoffDate (transaction_id cutoff_date : string)
| AddRuleApplicationRootVersion (transaction_id version_id : string)
| RemoveRuleApplicationRootVersion (transaction_id version_id : string).

(** What a method hands back: [dict|None], [str|None], [list] or [bool]. *)
Inductive result : Type :=
| Transaction (t : option dict)
| Identifier (s : option string)
| Transactions (l : list dict)
| Flag (b : bool).

Definition returning {A : Type} (f : A -> result) (m : M A) : M result :=
  a <- m ;; ret (f a).

Definition call (e : env) (op : operation) : M result :=
  match op with
  | GetTransaction i => returning Transaction (get_transaction e i)
  | CreateTransaction u n p c1 c2 =>
      returning Identifier (create_transaction e u n p c1 c2)
  | AddNewColumnDatatype i c t =>
      returning Flag (add_new_column_datatype e i c t)
  | UpdateTransaction i r => returning Flag (update_transaction e i r)
  | DeleteTransaction i => returning Flag (delete_transaction e i)
  | GetTransactionsByUser u =>
      returning Transactions (get_transactions_by_user e u)
  | SetBaseFile i v => returning Flag (set_base_file e i v)
  | SetPreprocessedFile i v => returning Flag (set_preprocessed_file e i v)
  | ChangeTransactionName i n => returning Flag (change_transaction_name e i n)
  | UpdateCutoffDate i c => returning Flag (update_cutoff_date e i c)
  | AddRuleApplicationRootVersion i v =>
      returning Flag (add_rule_application_root_version e i v)
  | RemoveRuleApplicationRootVersion i v =>
      returning Flag (remove_rule_application_root_version e i v)
  end.

(** The value each [except PyMongoError] branch returns. *)
Definition sentinel (op : operation) : result :=
  match op with
  | GetTransaction _ => Transaction None
  | CreateTransaction _ _ _ _ _ => Identifier None
  | GetTransactionsByUser _ => Transactions []
  | _ => Flag false
  end.

(** The line each [except PyMongoError] branch logs, for the error [msg]. *)
Definition error_line (op : operation) (msg : string) : string :=
  match op with
  | GetTransaction _ => "Database error while getting transaction: " ++ msg
  | CreateTransaction _ _ _ _ _ =>
      "Database error while creating transaction: " ++ msg
  | AddNewColumnDatatype _ _ _ =>
      "Database error while adding new column datatype: " ++ msg
  | UpdateTransaction _ _ =>
      "Database error while updating transaction: " ++ msg
  | DeleteTransaction _ =>
      "Database error while deleting transaction: " ++ msg
  | GetTransactionsByUser u =>
      "Database error while fetching transactions for user " ++ u ++ ": "
      ++ msg
  | SetBaseFile i _ =>
      "Database error while setting base_file for transaction " ++ i ++ ": "
      ++ msg
  | SetPreprocessedFile i _ =>
      "Database error while setting preprocessed_file for transaction " ++ i
      ++ ": " ++ msg
  | ChangeTransactionName _ _ =>
      "Database error while changing transaction name: " ++ msg
  | UpdateCutoffDate _ _ => "Database error while updating cutoff date: " ++ msg
  | AddRuleApplicationRootVersion _ _ => "Error adding root version: " ++ msg
  | RemoveRuleApplicationRootVersion _ _ =>
      "Error removing root version: " ++ msg
  end.

(** The identifier argument a method hands to [ObjectId]. *)
Definition identifier_of (op : operation) : string :=
  match op with
  | GetTransaction i | AddNewColumnDatatype i _ _ | UpdateTransaction i _
  | DeleteTransaction i | SetBaseFile i _ | SetPreprocessedFile i _
  | ChangeTransactionName i _ | UpdateCutoffDate i _
  | AddRuleApplicationRootVersion i _
  | RemoveRuleApplicationRootVersion i _ => i
  | CreateTransaction u _ _ _ _ | GetTransactionsByUser u => u
  end.

Definition parses (s : string) : bool :=
  match ObjectId s with Return _ => true | Raise _ => false end.

(** The method gets as far as its store call: the identifier parses and a
    field map, where there is one, is a dictionary. *)
Definition reaches_store (op : operation) (w : world) : bool :=
  parses (identifier_of op)
  && match op with
     | UpdateTransaction _ r =>
         match nth_error (heap w) r with Some _ => true | None => false end
     | _ => true
     end.

(** The root-version list of a stored transaction; a document that has no
    such field yet has the empty list. *)
Definition root_versions (d : dict) : option (list value) :=
  match dict_get "rule_application_root_versions" d with
  | None => Some []
  | Some (VList l) => Some l
  | Some _ => None
  end.

(** A stored transaction whose owner identifier is an [ObjectId], as
    [create_transaction] stores it. *)
Definition owner_is_oid (d : dict) : bool :=
  match dict_get "user_id" d with
  | Some (VOid _) => true
  | _ => false
  end.

(** The steps of [update_transaction] before its store call: what they leave
    behind the caller's reference. *)
Definition stripped_and_stamped (e : env) (d : dict) : dict :=
  add_timestamps (dict_pop "user_id" (dict_pop "_id" d)) true (now e).

Definition set_heap (h : list dict) (w : world) : world :=
  mkWorld (transactions w) (logged w) h.

Definition log_line (line : string) (w : world) : world :=
  mkWorld (transactions w) (logged w ++ [line]) (heap w).

(** What [except PyMongoError as e] makes of an exception that reaches it
    in a method that returns a flag: a [PyMongoError] is logged and answered
    with [False], any other goes on to the caller. *)
Definition handled (line : string -> string) (x : exn) (w : world)
  : outcome bool * world :=
  match x with
  | PyMongoError msg => (Return false, log_line (line msg) w)
  | _ => (Raise x, w)
  end.

(** The filter on ["_id"] and the update document of an [update_one], as
    the store receives them. *)
Definition sent_update (e : env) (id : object_id) (u : update_spec)
  : outcome (value * update_spec) :=
  match encode_filter e "_id" (VOid id) with
  | Raise x => Raise x
  | Return q =>
      match encode_update e u with
      | Raise x => Raise x
      | Return u' => Return (q, u')
      end
  end.

(** The collection's unique index on ["_id"]: no two documents answer to
    one identifier. *)
Definition ids_unique (docs : list dict) : Prop :=
  forall q : value,
    (List.length (filter (matches "_id" q) docs) <= 1)%nat.

(** The top-level field an update path starts at. *)
Definition root_of (key : string) : string :=
  hd "" (split_path key "").

(** ** Sample data *)

Definition sample_id : string := "65f0a1b2c3d4e5f601234567".
Definition other_id : string := "65f0a1b2c3d4e5f6012345ff".
Definition sample_owner : string := "0123456789abcdef01234567".

(** No version record is found. *)
Definition quiet_env : env :=
  mkEnv None 2000 (Oid other_id) (fun _ => None) (fun _ => "?")
        (fun _ => Raise (InvalidDocument "malformed ObjectId")).

Definition failing_env : env :=
  mkEnv (Some "connection refused") 2000 (Oid other_id)
        (fun _ => None) (fun _ => "?")
        (fun _ => Raise (InvalidDocument "malformed ObjectId")).

Definition sample_transaction : dict :=
  [ ("_id", VOid (Oid sample_id));
    ("user_id", VOid (Oid sample_owner));
    ("name", VStr "loans");
    ("base_file", VStr "v9");
    ("rule_application_root_versions",
     VList [VStr "v1"; VStr "v2"; VStr "v1"]);
    ("created_at", VDate 1000);
    ("updated_at", VDate 1000) ].

Definition sample_patch : dict :=
  [ ("_id", VStr other_id); ("name", VStr "bonds");
    ("user_id", VStr sample_id) ].

Definition sample_world : world :=
  mkWorld [sample_transaction] [] [sample_patch].

Definition empty_world : world := mkWorld [] [] [].

(** The world after one [create_transaction]; the new transaction has the
    identifier [other_id]. *)
Definition fresh_world : world :=
  snd (create_transaction quiet_env sample_owner "loans" "/data" None None
         empty_world).


(** ** Helpers for further properties *)

(** The field each single-field setter writes, and the value it writes. *)
Definition setter_write (op : operation) : option (string * string) :=
  match op with
  | SetBaseFile _ v => Some ("base_file", v)
  | SetPreprocessedFile _ v => Some ("preprocessed_file", v)
  | ChangeTransactionName _ n => Some ("name", n)
  | UpdateCutoffDate _ c => Some ("cutoff_date", c)
  | _ => None
  end.

(** A key that is one plain field name: not empty, no dot, no leading
    dollar sign and no null character. *)
Definition plain_key (k : string) : bool :=
  negb (String.eqb k "")
  && string_forallb (fun c => negb (Ascii.eqb c "."%char)) k
  && negb (String.prefix "$" k)
  && string_forallb (fun c => negb (Ascii.eqb c zero)) k.

(** The methods that look one transaction up by its identifier. *)
Definition by_transaction_id (op : operation) : bool :=
  match op with
  | CreateTransaction _ _ _ _ _ | GetTransactionsByUser _ => false
  | _ => true
  end.

(** A field map, where the method takes one, is a dictionary. *)
Definition field_map_ok (op : operation) (w : world) : bool :=
  match op with
  | UpdateTransaction _ r =>
      match nth_error (heap w) r with Some _ => true | None => false end
  | _ => true
  end.

(** A field map with an integer of 65 bits, and a world whose caller holds
    it. *)
Definition overflow_patch : dict :=
  [ ("version_number", VInt 9223372036854775808) ].

Definition overflow_patch_world : world :=
  mkWorld [sample_transaction] [] [overflow_patch].

(** What the method sends with the identifier is something the driver
    encodes: the field map of [update_transaction] less the two keys popped,
    the column name of [add_new_column_datatype].  The other methods send
    strings under keys of their own. *)
Definition sends_encodable (op : operation) (w : world) : bool :=
  match op with
  | UpdateTransaction _ r =>
      match nth_error (heap w) r with
      | Some m => encodable_fields (dict_pop "user_id" (dict_pop "_id" m))
      | None => true
      end
  | AddNewColumnDatatype _ column _ => negb (has_nul column)
  | _ => true
  end.

(** A field map with a key below the owner, and a world whose caller holds
    it. *)
Definition owner_patch : dict :=
  [ ("name", VStr "bonds"); ("user_id.role", VStr "admin") ].

Definition owner_patch_world : world :=
  mkWorld [sample_transaction] [] [owner_patch].

(** A stored document has an ["_id"], as every document of a collection
    does. *)
Definition has_id (d : dict) : bool :=
  match dict_get "_id" d with Some _ => true | None => false end.

(** The version lookup finds the record of version ["v9"], and no other. *)
Definition version_env : env :=
  mkEnv None 2000 (Oid other_id)
    (fun v =>
       if value_eqb v (VStr "v9")
       then Some [("_id", VStr "v9"); ("files_path", VStr "/data/v9.csv")]
       else None)
    (fun _ => "?")
    (fun _ => Raise (InvalidDocument "malformed ObjectId")).

(** * Properties *)

(** ** Equality of values *)

Lemma oid_eqb_eq (a b : oid) : oid_eqb a b = true <-> a = b.
Proof.
  destruct a as [x], b as [y]; unfold oid_eqb; simpl.
  rewrite String.eqb_eq. split; congruence.
Qed.

Lemma object_id_eqb_eq (a b : object_id) :
  object_id_eqb a b = true <-> a = b.
Proof.
  destruct a as [x|x], b as [y|y]; simpl;
    try (split; [discriminate | congruence]).
  - rewrite oid_eqb_eq. split; congruence.
  - rewrite String.eqb_eq. split; congruence.
Qed.

Lemma value_eqb_eq (a b : value) : value_eqb a b = true <-> a = b.
Proof.
  revert b. induction a using value_nested_ind; intros [] ; simpl;
    try (split; [discriminate | congruence]).
  - tauto.
  - rewrite Bool.eqb_true_iff. split; congruence.
  - rewrite Z.eqb_eq. split; congruence.
  - rewrite String.eqb_eq. split; congruence.
  - rewrite object_id_eqb_eq. split; congruence.
  - rewrite Z.eqb_eq. split; congruence.
  - rename l0 into m. revert m.
    induction H as [|x l Hx Hl IH]; intros [|y m];
      try (split; [discriminate | congruence]).
    + tauto.
    + rewrite andb_true_iff, Hx, IH. split.
      * intros [-> E]. congruence.
      * intros E. injection E as -> ->. tauto.
  - rename d0 into m. revert m.
    induction H as [|[k x] l Hx Hl IH]; intros [|[j y] m];
      try (split; [discriminate | congruence]).
    + tauto.
    + simpl in Hx.
      rewrite !andb_true_iff, String.eqb_eq, Hx, IH. split.
      * intros [[-> ->] E]. congruence.
      * intros E. injection E as -> -> ->. tauto.
Qed.

Lemma value_eqb_refl (a : value) : value_eqb a a = true.
Proof. now apply value_eqb_eq. Qed.

Lemma opt_value_eqb_eq (a b : option value) :
  opt_value_eqb a b = true <-> a = b.
Proof.
  destruct a, b; simpl; try (split; [discriminate | congruence]).
  - rewrite value_eqb_eq. split; congruence.
  - tauto.
Qed.

(** ** Dictionaries *)

Lemma dict_get_set_same (k : string) (v : value) (d : dict) :
  dict_get k (dict_set k v d) = Some v.
Proof.
  induction d as [|[j w] d IH]; simpl.
  - now rewrite String.eqb_refl.
  - destruct (String.eqb k j) eqn:E; simpl; rewrite E; auto.
Qed.

Lemma dict_get_set_other (k j : string) (v : value) (d : dict) :
  k <> j -> dict_get k (dict_set j v d) = dict_get k d.
Proof.
  intros N. apply String.eqb_neq in N.
  induction d as [|[i w] d IH]; simpl.
  - now rewrite N.
  - destruct (String.eqb j i) eqn:E; simpl.
    + apply String.eqb_eq in E. subst i. now rewrite N.
    + now rewrite IH.
Qed.

Lemma dict_get_pop_same (k : string) (d : dict) :
  dict_get k (dict_pop k d) = None.
Proof.
  induction d as [|[j w] d IH]; simpl; auto.
  destruct (String.eqb k j) eqn:E; simpl; auto. now rewrite E.
Qed.

Lemma dict_get_pop_other (k j : string) (d : dict) :
  k <> j -> dict_get k (dict_pop j d) = dict_get k d.
Proof.
  intros N. apply String.eqb_neq in N.
  induction d as [|[i w] d IH]; simpl; auto.
  destruct (String.eqb j i) eqn:E; simpl.
  - apply String.eqb_eq in E. subst i. now rewrite N.
  - now rewrite IH.
Qed.

Lemma dict_pop_idempotent (k : string) (d : dict) :
  dict_pop k (dict_pop k d) = dict_pop k d.
Proof.
  unfold dict_pop. induction d as [|[j w] d IH]; simpl; auto.
  destruct (String.eqb k j) eqn:E; simpl; auto. rewrite E. simpl. now f_equal.
Qed.

Lemma dict_pop_comm (k j : string) (d : dict) :
  dict_pop k (dict_pop j d) = dict_pop j (dict_pop k d).
Proof.
  unfold dict_pop. induction d as [|[i w] d IH]; simpl; auto.
  destruct (String.eqb j i) eqn:E, (String.eqb k i) eqn:F; simpl;
    rewrite ?E, ?F; simpl; auto. now f_equal.
Qed.

(** ** The caller's heap *)

Lemma nth_error_list_replace {A : Type} (i : nat) (x y : A) (l : list A) :
  nth_error l i = Some y -> nth_error (list_replace i x l) i = Some x.
Proof.
  revert l. induction i as [|i IH]; intros [|z l]; simpl; try discriminate; auto.
Qed.

Lemma list_replace_twice {A : Type} (i : nat) (x y : A) (l : list A) :
  list_replace i x (list_replace i y l) = list_replace i x l.
Proof.
  revert l. induction i as [|i IH]; intros [|z l]; simpl; auto.
  now rewrite IH.
Qed.


(** ** Running the methods *)

Lemma ObjectId_raises (s : string) (x : exn) :
  ObjectId s = Raise x -> x = InvalidId s.
Proof.
  unfold ObjectId. destruct (String.length s =? 24)%nat; [|congruence].
  destruct (fromhex s) as [h|]; [|congruence].
  destruct (String.length h =? 24)%nat; discriminate.
Qed.

(** *** What the encoder passes *)

Lemma encodable_encodes (e : env) (v : value) :
  encodable v = true -> bson_encode e v = Return v.
Proof.
  induction v as [| | | |[o|h]| |l IH|d IH] using value_nested_ind;
    cbn [encodable bson_encode]; auto; try discriminate.
  - now intros ->.
  - intros H.
    assert (G : (fix encode_items (l : list value) : outcome (list value) :=
                   match l with
                   | [] => Return []
                   | x :: l' =>
                       match bson_encode e x with
                       | Raise y => Raise y
                       | Return x' =>
                           match encode_items l' with
                           | Raise y => Raise y
                           | Return r => Return (x' :: r)
                           end
                       end
                   end) l = Return l); [|now rewrite G].
    induction IH as [|x l Hx Hl IHl]; auto.
    apply andb_true_iff in H as [H1 H2].
    now rewrite (Hx H1), (IHl H2).
  - intros H.
    assert (G : (fix encode_entries (d : list (string * value))
                   : outcome (list (string * value)) :=
                   match d with
                   | [] => Return []
                   | (k, x) :: d' =>
                       if has_nul k then Raise invalid_key
                       else
                         match bson_encode e x with
                         | Raise y => Raise y
                         | Return x' =>
                             match encode_entries d' with
                             | Raise y => Raise y
                             | Return r => Return ((k, x') :: r)
                             end
                         end
                   end) d = Return d); [|now rewrite G].
    induction IH as [|[k x] d Hx Hd IHd]; auto.
    apply andb_true_iff in H as [H H3]. apply andb_true_iff in H as [H1 H2].
    apply negb_true_iff in H1. simpl in Hx.
    now rewrite H1, (Hx H2), (IHd H3).
Qed.

Lemma encodable_fields_encode (e : env) (d : dict) :
  encodable_fields d = true -> encode_fields e d = Return d.
Proof.
  unfold encodable_fields. induction d as [|[k x] d IH]; auto.
  cbn [encodable encode_fields]. intros H.
  apply andb_true_iff in H as [H H3]. apply andb_true_iff in H as [H1 H2].
  apply negb_true_iff in H1.
  now rewrite H1, (encodable_encodes e x H2), (IH H3).
Qed.

(** The encoder keeps the keys of a document. *)
Lemma encode_fields_keys (e : env) (d d' : dict) :
  encode_fields e d = Return d' -> map fst d' = map fst d.
Proof.
  revert d'. induction d as [|[k x] d IH]; intros d'; cbn [encode_fields].
  - intros E. now injection E as <-.
  - destruct (has_nul k); [discriminate|].
    destruct (bson_encode e x) as [x'|]; [|discriminate].
    destruct (encode_fields e d) as [r|]; [|discriminate].
    intros E. injection E as <-. simpl. f_equal. now apply IH.
Qed.

Lemma same_keys_same_absence (k : string) (d d' : dict) :
  map fst d' = map fst d -> dict_get k d = None -> dict_get k d' = None.
Proof.
  revert d'. induction d as [|[j x] d IH]; intros [|[j' x'] d'];
    simpl; try discriminate; auto.
  intros E. injection E as -> E.
  destruct (String.eqb k j); [discriminate | now apply IH].
Qed.

Lemma same_keys_same_forallb (p : string -> bool) (d d' : dict) :
  map fst d' = map fst d ->
  forallb (fun kv => p (fst kv)) d = true ->
  forallb (fun kv => p (fst kv)) d' = true.
Proof.
  revert d'. induction d as [|[j x] d IH]; intros [|[j' x'] d'];
    simpl; try discriminate; auto.
  intros E. injection E as -> E. intros H.
  apply andb_true_iff in H as [-> H]. now apply IH.
Qed.

Lemma encode_id_filter (e : env) (o : oid) :
  encode_filter e "_id" (VOid o) = Return (VOid o).
Proof. reflexivity. Qed.

Lemma encode_owner_filter (e : env) (o : oid) :
  encode_filter e "user_id" (VOid o) = Return (VOid o).
Proof. reflexivity. Qed.

Lemma encodable_fields_cons (k : string) (x : value) (d : dict) :
  encodable_fields ((k, x) :: d)
  = negb (has_nul k) && encodable x && encodable_fields d.
Proof. reflexivity. Qed.

Lemma encodable_dict_set (k : string) (v : value) (d : dict) :
  has_nul k = false ->
  encodable v = true ->
  encodable_fields d = true ->
  encodable_fields (dict_set k v d) = true.
Proof.
  intros K V. induction d as [|[j x] d IH]; cbn [dict_set].
  - intros _. rewrite encodable_fields_cons, K, V. reflexivity.
  - rewrite encodable_fields_cons. intros H.
    apply andb_true_iff in H as [H H3]. apply andb_true_iff in H as [H1 H2].
    destruct (String.eqb k j); rewrite encodable_fields_cons.
    + now rewrite H1, V, H3.
    + now rewrite H1, H2, IH.
Qed.

Lemma encodable_dict_pop (k : string) (d : dict) :
  encodable_fields d = true -> encodable_fields (dict_pop k d) = true.
Proof.
  unfold dict_pop. induction d as [|[j x] d IH]; cbn [filter fst]; auto.
  rewrite encodable_fields_cons. intros H.
  apply andb_true_iff in H as [H H3]. apply andb_true_iff in H as [H1 H2].
  destruct (negb (String.eqb k j)); auto.
  now rewrite encodable_fields_cons, H1, H2, IH.
Qed.

(** What is sent for a [$set] has the keys of the field map. *)
Lemma sent_set_keys (e : env) (id : object_id) (fields : dict) (q : value)
    (u' : update_spec) :
  sent_update e id (Set_ fields) = Return (q, u') ->
  exists fields', u' = Set_ fields' /\ map fst fields' = map fst fields.
Proof.
  unfold sent_update, encode_update.
  destruct (encode_filter e "_id" (VOid id)); [|discriminate].
  destruct (encode_fields e fields) as [f'|] eqn:E; [|discriminate].
  intros X. injection X as _ <-. exists f'. split; auto.
  eapply encode_fields_keys, E.
Qed.

Lemma sent_set_twelve (e : env) (id : oid) (fields : dict) (q : value)
    (u' : update_spec) :
  sent_update e id (Set_ fields) = Return (q, u') ->
  q = VOid id
  /\ exists fields', u' = Set_ fields' /\ encode_fields e fields = Return fields'.
Proof.
  unfold sent_update, encode_update. rewrite encode_id_filter.
  destruct (encode_fields e fields) as [f'|] eqn:E; [|discriminate].
  intros X. injection X as <- <-. eauto.
Qed.

(** The encoder keeps an entry whose value it passes as it is. *)
Lemma encode_fields_get (e : env) (d d' : dict) (k : string) (v : value) :
  encode_fields e d = Return d' ->
  bson_encode e v = Return v ->
  dict_get k d = Some v ->
  dict_get k d' = Some v.
Proof.
  intros E V. revert d' E.
  induction d as [|[j x] d IH]; intros d'; cbn [encode_fields dict_get];
    [discriminate|].
  destruct (has_nul j); [discriminate|].
  destruct (bson_encode e x) as [x'|] eqn:X; [|discriminate].
  destruct (encode_fields e d) as [r|]; [|discriminate].
  intros E. injection E as <-. cbn [dict_get].
  destruct (String.eqb k j).
  - intros G. injection G as ->. congruence.
  - now apply IH.
Qed.

(** What is sent for a root-version update is the update. *)
Lemma sent_root_version_update (e : env) (id : object_id) (v : string)
    (q : value) (u u' : update_spec) :
  u = Push "rule_application_root_versions" (VStr v)
  \/ u = Pull "rule_application_root_versions" (VStr v) ->
  sent_update e id u = Return (q, u') -> u' = u.
Proof.
  unfold sent_update.
  destruct (encode_filter e "_id" (VOid id)); [|discriminate].
  intros [-> | ->]; cbn; intros X; now injection X as _ <-.
Qed.

Lemma sent_update_twelve (e : env) (id : oid) (u : update_spec) :
  encode_update e u = Return u ->
  sent_update e id u = Return (VOid id, u).
Proof. intros E. unfold sent_update. now rewrite E. Qed.

Lemma bind_run {A B : Type} (m : M A) (k : A -> M B) (w w' : world) (a : A) :
  m w = (Return a, w') -> bind m k w = k a w'.
Proof. intros H. unfold bind. now rewrite H. Qed.

Lemma pop_run (r : nat) (k : string) (w : world) (d : dict) :
  nth_error (heap w) r = Some d ->
  pop r k w = (Return tt, set_heap (list_replace r (dict_pop k d) (heap w)) w).
Proof. intros H. unfold pop, deref, assign, bind. now rewrite H. Qed.

Lemma add_timestamps_ref_run (e : env) (r : nat) (b : bool) (w : world)
    (d : dict) :
  nth_error (heap w) r = Some d ->
  add_timestamps_ref e r b w =
  (Return r,
   set_heap (list_replace r (add_timestamps d b (now e)) (heap w)) w).
Proof.
  intros H. unfold add_timestamps_ref, deref, assign, bind, ret.
  now rewrite H.
Qed.

Lemma deref_run (r : nat) (w : world) (d : dict) :
  nth_error (heap w) r = Some d -> deref r w = (Return d, w).
Proof. intros H. unfold deref. now rewrite H. Qed.

(** What a method does once its update is on its way: the driver encodes
    the filter and the update document, then the store applies the update
    to the first document the filter finds. *)
Lemma update_one_steps (e : env) (id : object_id) (u : update_spec)
    (line : string -> string) (w : world) :
  fault e = None ->
  try_except
    (modified_count <- update_one e "_id" (VOid id) u ;;
     ret (0 <? modified_count)%Z)
    (fun msg => logger_error (line msg) ;;; ret false) w =
  match sent_update e id u with
  | Raise x => handled line x w
  | Return (q, u') =>
      match update_first (matches "_id" q) (apply_update u')
              (transactions w) with
      | Some (docs, n) => (Return (0 <? n)%Z, set_transactions docs w)
      | None => (Return false, log_line (line write_error) w)
      end
  end.
Proof.
  intros F.
  unfold try_except, update_one, store_call, sent_update, handled, bind,
    lift, raise, ret, logger_error, log_line.
  rewrite F.
  destruct (encode_filter e "_id" (VOid id)) as [q|x];
    [|destruct x; reflexivity].
  destruct (encode_update e u) as [u'|x]; [|destruct x; reflexivity].
  destruct (update_first _ _ _) as [[docs n]|]; reflexivity.
Qed.

Lemma update_transaction_steps (e : env) (tid : string) (r : nat)
    (w : world) (d : dict) :
  nth_error (heap w) r = Some d ->
  update_transaction e tid r w =
  let w1 := set_heap (list_replace r (stripped_and_stamped e d) (heap w)) w in
  match ObjectId tid with
  | Raise x => (Raise x, w1)
  | Return id =>
      match fault e with
      | Some msg =>
          (Return false,
           log_line ("Database error while updating transaction: " ++ msg) w1)
      | None =>
          match sent_update e id (Set_ (stripped_and_stamped e d)) with
          | Raise x =>
              handled
                (fun msg =>
                   "Database error while updating transaction: " ++ msg)
                %string x w1
          | Return (q, u') =>
              match update_first (matches "_id" q) (apply_update u')
                      (transactions w) with
              | Some (docs, n) =>
                  (Return (0 <? n)%Z, set_transactions docs w1)
              | None =>
                  (Return false,
                   log_line
                     ("Database error while updating transaction: "
                      ++ write_error) w1)
              end
          end
      end
  end.
Proof.
  intros H.
  set (w1 := set_heap (list_replace r (stripped_and_stamped e d) (heap w)) w).
  assert (H1 : nth_error (heap w1) r = Some (stripped_and_stamped e d))
    by (apply nth_error_list_replace with (y := d); exact H).
  cbv zeta.
  unfold update_transaction, try_except.
  rewrite (bind_run _ _ _ _ _ (pop_run r "_id" w d H)).
  erewrite bind_run; cycle 1.
  { apply pop_run. simpl. eapply nth_error_list_replace, H. }
  erewrite bind_run; cycle 1.
  { apply add_timestamps_ref_run. simpl.
    rewrite list_replace_twice. eapply nth_error_list_replace, H. }
  unfold set_heap. cbn [heap transactions logged].
  rewrite !list_replace_twice.
  fold (stripped_and_stamped e d).
  change (mkWorld (transactions w) (logged w)
            (list_replace r (stripped_and_stamped e d) (heap w))) with w1.
  unfold bind at 1, lift.
  destruct (ObjectId tid) as [id|x] eqn:E;
    [|rewrite (ObjectId_raises _ _ E); reflexivity].
  rewrite (bind_run _ _ _ _ _ (deref_run r w1 _ H1)).
  unfold update_one, store_call, sent_update, handled, bind, lift, raise,
    ret, logger_error, log_line.
  destruct (fault e) as [msg|]; [reflexivity|].
  destruct (encode_filter e "_id" (VOid id)) as [q|x];
    [|destruct x; reflexivity].
  destruct (encode_update e _) as [u'|x]; [|destruct x; reflexivity].
  change (transactions w1) with (transactions w).
  destruct (update_first _ _ _) as [[docs n]|]; reflexivity.
Qed.

(** The shape shared by the methods that send one update and return
    [modified_count > 0]. *)
Lemma flag_update_steps (e : env) (tid : string) (line : string -> string)
    (u : update_spec) (w : world) :
  try_except
    (id <- lift (ObjectId tid) ;;
     modified_count <- update_one e "_id" (VOid id) u ;;
     ret (0 <? modified_count)%Z)
    (fun msg => logger_error (line msg) ;;; ret false) w =
  match ObjectId tid with
  | Raise x => (Raise x, w)
  | Return id =>
      match fault e with
      | Some msg => (Return false, log_line (line msg) w)
      | None =>
          match sent_update e id u with
          | Raise x => handled line x w
          | Return (q, u') =>
              match update_first (matches "_id" q) (apply_update u')
                      (transactions w) with
              | Some (docs, n) => (Return (0 <? n)%Z, set_transactions docs w)
              | None => (Return false, log_line (line write_error) w)
              end
          end
      end
  end.
Proof.
  unfold try_except, update_one, store_call, sent_update, handled, bind,
    lift, raise, ret, logger_error, log_line.
  destruct (ObjectId tid) as [id|x] eqn:E;
    [|rewrite (ObjectId_raises _ _ E); reflexivity].
  destruct (fault e) as [msg|]; [reflexivity|].
  destruct (encode_filter e "_id" (VOid id)) as [q|x];
    [|destruct x; reflexivity].
  destruct (encode_update e u) as [u'|x]; [|destruct x; reflexivity].
  destruct (update_first _ _ _) as [[docs n]|]; reflexivity.
Qed.

(** The store has the collection it had whenever an exception ends the
    call. *)
Lemma handled_keeps_store (line : string -> string) (x : exn) (w : world) :
  transactions (snd (handled line x w)) = transactions w
  /\ heap (snd (handled line x w)) = heap w.
Proof. destruct x; split; reflexivity. Qed.

(** ** C1: a created transaction read back *)

Lemma find_app_last {A : Type} (m : A -> bool) (l : list A) (x : A) :
  existsb m l = false -> m x = true -> find m (l ++ [x]) = Some x.
Proof.
  intros H Hx. induction l as [|y l IH]; simpl in *.
  - now rewrite Hx.
  - apply orb_false_iff in H as [-> H]. auto.
Qed.

Lemma matches_own_id (o : oid) (d : dict) :
  dict_get "_id" d = Some (VOid o) -> matches "_id" (VOid o) d = true.
Proof.
  intros H. unfold matches. rewrite H. simpl.
  unfold oid_eqb. now rewrite String.eqb_refl.
Qed.

(** C1, amended.  For every owner identifier of 24 hexadecimal digits,
    every name and base path (and optional asset classes), when the store
    answers and the generated identifier is well formed and unused,
    [create_transaction] returns the new identifier and [get_transaction]
    on it returns a record with that identifier and the owner as strings,
    the name and base path given, [version_number] 0, [are_all_steps_complete] false, an empty
    [new_added_columns_datatype] map, every file-reference field and the
    cutoff date [None] -- and no [rule_application_root_versions] entry. *)
Theorem create_then_get_defaults (e e' : env) (w : world)
    (user_id name base_file_path : string) (c1 c2 : option string)
    (uid : oid) :
  ObjectId user_id = Return uid ->
  fault e = None ->
  fault e' = None ->
  ObjectId (oid_hex (fresh_oid e)) = Return (fresh_oid e) ->
  existsb (matches "_id" (VOid (fresh_oid e))) (transactions w) = false ->
  exists (w1 : world) (r : dict),
    create_transaction e user_id name base_file_path c1 c2 w
    = (Return (Some (oid_hex (fresh_oid e))), w1)
    /\ get_transaction e' (oid_hex (fresh_oid e)) w1 = (Return (Some r), w1)
    /\ dict_get "_id" r = Some (VStr (oid_hex (fresh_oid e)))
    /\ dict_get "user_id" r = Some (VStr (oid_hex uid))
    /\ dict_get "name" r = Some (VStr name)
    /\ dict_get "base_file_path" r = Some (VStr base_file_path)
    /\ dict_get "version_number" r = Some (VInt 0)
    /\ dict_get "are_all_steps_complete" r = Some (VBool false)
    /\ dict_get "new_added_columns_datatype" r = Some (VDict [])
    /\ dict_get "base_file" r = Some VNone
    /\ dict_get "preprocessed_file" r = Some VNone
    /\ dict_get "column_rename_file" r = Some VNone
    /\ dict_get "temp_changing_datatype_of_column" r = Some VNone
    /\ dict_get "changed_datatype_of_column" r = Some VNone
    /\ dict_get "temp_rbi_rules_applied" r = Some VNone
    /\ dict_get "final_rbi_rules_applied" r = Some VNone
    /\ dict_get "cutoff_date" r = Some VNone
    /\ dict_get "primary_asset_class" r = option_map VStr c1
    /\ dict_get "secondary_asset_class" r = option_map VStr c2
    /\ dict_get "rule_application_root_versions" r = None.
Proof.
  intros Huid He He' Hfresh Hnew.
  unfold create_transaction, get_transaction, try_except, insert_one,
    find_one, store_call, bind, lift, ret.
  rewrite Huid, He, He', Hfresh, encode_id_filter.
  destruct c1 as [c1|], c2 as [c2|];
    cbn [dict_set add_timestamps String.eqb Ascii.eqb Bool.eqb dict_get
         dict_get_default];
    rewrite encodable_fields_encode by reflexivity;
    cbn [String.eqb Ascii.eqb Bool.eqb dict_get dict_get_default];
    rewrite Hnew; cbn [transactions set_transactions logged heap];
    eexists; eexists; (split; [reflexivity|]);
    cbn [transactions set_transactions];
    (erewrite find_app_last;
     [|exact Hnew|apply matches_own_id; reflexivity]);
    (split; [reflexivity|]); repeat split.
Qed.

Lemma create_then_get_defaults_witness :
  exists (w1 : world) (r : dict),
    create_transaction quiet_env sample_owner "loans" "/data" None None
      empty_world
    = (Return (Some other_id), w1)
    /\ get_transaction quiet_env other_id w1 = (Return (Some r), w1)
    /\ dict_get "version_number" r = Some (VInt 0)
    /\ dict_get "rule_application_root_versions" r = None.
Proof.
  destruct (create_then_get_defaults quiet_env quiet_env empty_world
              sample_owner "loans" "/data" None None (Oid sample_owner))
    as (w1 & r & H); try reflexivity.
  exists w1, r. intuition.
Defined.

(** C1 as stated fails: the record read back after [create_transaction] has
    no root-version list. *)
Lemma create_then_get_lacks_root_versions :
  exists (w1 : world) (r : dict),
    create_transaction quiet_env sample_owner "loans" "/data" None None
      empty_world
    = (Return (Some other_id), w1)
    /\ get_transaction quiet_env other_id w1 = (Return (Some r), w1)
    /\ dict_get "rule_application_root_versions" r = None.
Proof. do 2 eexists. repeat split; reflexivity. Qed.

(** ** C2: the generic update leaves the identifiers alone *)

Lemma string_append_empty_r (s : string) : (s ++ "")%string = s.
Proof. induction s; simpl; congruence. Qed.

Lemma string_append_assoc (a b c : string) :
  ((a ++ b) ++ c)%string = (a ++ (b ++ c))%string.
Proof. induction a; simpl; congruence. Qed.

Lemma split_path_not_nil (s cur : string) : split_path s cur <> [].
Proof.
  revert cur. induction s as [|c s IH]; intros cur; simpl; try discriminate.
  destruct (Ascii.eqb c "."); [discriminate | apply IH].
Qed.

Lemma split_path_single (s cur k : string) :
  split_path s cur = [k] -> (cur ++ s)%string = k.
Proof.
  revert cur. induction s as [|c s IH]; intros cur; simpl.
  - rewrite string_append_empty_r. congruence.
  - destruct (Ascii.eqb c ".").
    + intros H. injection H as _ H. now apply split_path_not_nil in H.
    + intros H. apply IH in H. now rewrite string_append_assoc in H.
Qed.

Lemma set_field_keeps_owner (key : string) (v : value) (d d' : dict)
    (o : object_id) :
  key <> "user_id" ->
  dict_get "user_id" d = Some (VOid o) ->
  set_field key v d = Some d' ->
  dict_get "user_id" d' = Some (VOid o).
Proof.
  intros N H. unfold set_field.
  destruct (split_path key "") as [|k rest] eqn:P.
  - now apply split_path_not_nil in P.
  - cbn [set_at]. destruct (String.eqb k ""); [discriminate|].
    destruct (String.eqb_spec k "user_id") as [->|K].
    + rewrite H. destruct rest as [|k2 rest].
      * apply split_path_single in P. simpl in P. congruence.
      * cbn [set_at]. destruct (String.eqb k2 ""); discriminate.
    + destruct (set_at rest v (dict_get k d)); simpl; [|discriminate].
      intros E. injection E as <-.
      rewrite dict_get_set_other; auto.
Qed.

Lemma set_fields_keeps_owner (fields : dict) (d d' : dict)
    (o : object_id) :
  dict_get "user_id" fields = None ->
  dict_get "user_id" d = Some (VOid o) ->
  set_fields fields d = Some d' ->
  dict_get "user_id" d' = Some (VOid o).
Proof.
  revert d. induction fields as [|[key v] fields IH]; intros d F H; simpl.
  - congruence.
  - cbn [dict_get] in F.
    destruct (String.eqb_spec "user_id" key) as [|N]; [discriminate|].
    destruct (set_field key v d) as [d1|] eqn:E; [|discriminate].
    apply IH; auto. eapply set_field_keeps_owner; eauto.
Qed.

Lemma apply_update_keeps_id (u : update_spec) (d d' : dict) :
  apply_update u d = Some d' -> dict_get "_id" d' = dict_get "_id" d.
Proof.
  unfold apply_update.
  match goal with |- match ?a with _ => _ end = _ -> _ => destruct a end;
    [|discriminate].
  destruct (opt_value_eqb _ _) eqn:E; [|discriminate].
  intros H. injection H as <-. now apply opt_value_eqb_eq.
Qed.

Lemma apply_set_keeps_owner (fields : dict) (d d' : dict) :
  dict_get "user_id" fields = None ->
  owner_is_oid d = true ->
  apply_update (Set_ fields) d = Some d' ->
  dict_get "user_id" d' = dict_get "user_id" d.
Proof.
  intros F O. unfold owner_is_oid in O.
  destruct (dict_get "user_id" d) as [[]|] eqn:H; try discriminate.
  unfold apply_update.
  destruct (no_conflicts _); [|discriminate].
  destruct (set_fields fields d) as [d1|] eqn:E; [|discriminate].
  destruct (opt_value_eqb _ _); [|discriminate].
  intros X. injection X as <-. eapply set_fields_keeps_owner; eauto.
Qed.

Lemma update_first_keeps {B : Type} (g : dict -> B) (m : dict -> bool)
    (f : dict -> option dict) (docs docs' : list dict) (n : Z) :
  (forall d d', In d docs -> f d = Some d' -> g d' = g d) ->
  update_first m f docs = Some (docs', n) ->
  map g docs' = map g docs.
Proof.
  revert docs' n. induction docs as [|d docs IH]; intros docs' n G; simpl.
  - intros E. now injection E as <- _.
  - destruct (m d).
    + destruct (f d) as [d'|] eqn:E; [|discriminate].
      intros X. injection X as <- _. simpl. f_equal.
      apply (G d d'); simpl; auto.
    + destruct (update_first m f docs) as [[rest k]|] eqn:E; [|discriminate].
      intros X. injection X as <- _. simpl. f_equal.
      apply (IH rest k); auto. intros a a' Ha. apply G. now right.
Qed.

Lemma stripped_has_no_owner_key (e : env) (d : dict) :
  dict_get "user_id" (stripped_and_stamped e d) = None.
Proof.
  unfold stripped_and_stamped, add_timestamps.
  rewrite dict_get_set_other by discriminate. apply dict_get_pop_same.
Qed.

Lemma stripped_has_no_id_key (e : env) (d : dict) :
  dict_get "_id" (stripped_and_stamped e d) = None.
Proof.
  unfold stripped_and_stamped, add_timestamps.
  rewrite dict_get_set_other by discriminate.
  rewrite dict_get_pop_other by discriminate. apply dict_get_pop_same.
Qed.

Lemma stripped_of_stripped (e : env) (d : dict) :
  stripped_and_stamped e (dict_pop "user_id" (dict_pop "_id" d))
  = stripped_and_stamped e d.
Proof.
  unfold stripped_and_stamped. f_equal.
  rewrite (dict_pop_comm "_id" "user_id" (dict_pop "_id" d)).
  now rewrite !dict_pop_idempotent.
Qed.

Lemma update_transaction_keeps_id_fields (e : env) (tid : string) (r : nat)
    (w : world) :
  forallb owner_is_oid (transactions w) = true ->
  map (dict_get "_id") (transactions (snd (update_transaction e tid r w)))
  = map (dict_get "_id") (transactions w)
  /\ map (dict_get "user_id")
       (transactions (snd (update_transaction e tid r w)))
     = map (dict_get "user_id") (transactions w).
Proof.
  intros O. destruct (nth_error (heap w) r) as [d|] eqn:H.
  - rewrite (update_transaction_steps e tid r w d H). cbv zeta.
    destruct (ObjectId tid) as [id|x]; [|split; reflexivity].
    destruct (fault e) as [msg|]; [split; reflexivity|].
    destruct (sent_update e id _) as [[q u']|x] eqn:S;
      [|destruct x; split; reflexivity].
    destruct (sent_set_keys _ _ _ _ _ S) as (fields' & -> & K).
    destruct (update_first _ _ _) as [[docs n]|] eqn:U;
      [|split; reflexivity].
    cbn [snd transactions set_transactions]. split.
    + eapply update_first_keeps; [|exact U].
      intros a a' _. apply apply_update_keeps_id.
    + eapply update_first_keeps; [|exact U].
      intros a a' Ha. apply apply_set_keeps_owner.
      * apply (same_keys_same_absence _ _ _ K).
        apply stripped_has_no_owner_key.
      * rewrite forallb_forall in O. now apply O.
  - unfold update_transaction, try_except, pop, deref, bind.
    rewrite H. split; reflexivity.
Qed.

Lemma stripped_is_encodable (e : env) (d : dict) :
  encodable_fields (dict_pop "user_id" (dict_pop "_id" d)) = true ->
  encodable_fields (stripped_and_stamped e d) = true.
Proof.
  intros H. unfold stripped_and_stamped, add_timestamps.
  now apply encodable_dict_set.
Qed.

(** C2.  Whatever the identifier and the field map, [update_transaction]
    changes neither the ["_id"] nor the ["user_id"] of any stored
    transaction (the stored owners being identifiers).  A field map that
    carries those keys is not refused: the call runs exactly as it does on
    the map without them, and ends in a returned flag whenever the
    identifier is one of 24 hexadecimal digits and the driver can encode
    what is left of the map. *)
Theorem update_transaction_keeps_identifiers (e : env) (tid : string)
    (r : nat) (w : world) :
  forallb owner_is_oid (transactions w) = true ->
  let w' := snd (update_transaction e tid r w) in
  map (dict_get "_id") (transactions w') = map (dict_get "_id") (transactions w)
  /\ map (dict_get "user_id") (transactions w')
     = map (dict_get "user_id") (transactions w)
  /\ (forall d, nth_error (heap w) r = Some d ->
        update_transaction e tid r w
        = update_transaction e tid r
            (set_heap
               (list_replace r (dict_pop "user_id" (dict_pop "_id" d))
                  (heap w)) w))
  /\ (forall d (id : oid), nth_error (heap w) r = Some d ->
        ObjectId tid = Return id ->
        encodable_fields (dict_pop "user_id" (dict_pop "_id" d)) = true ->
        exists b, fst (update_transaction e tid r w) = Return b).
Proof.
  intros O w'.
  destruct (update_transaction_keeps_id_fields e tid r w O) as [K1 K2].
  subst w'. repeat split; auto.
  - intros d H.
    rewrite (update_transaction_steps e tid r w d H).
    rewrite (update_transaction_steps e tid r _
               (dict_pop "user_id" (dict_pop "_id" d))).
    + cbv zeta. unfold set_heap. cbn [heap transactions logged].
      now rewrite stripped_of_stripped, list_replace_twice.
    + cbn [set_heap heap]. eapply nth_error_list_replace, H.
  - intros d id H I C.
    rewrite (update_transaction_steps e tid r w d H). cbv zeta. rewrite I.
    destruct (fault e) as [msg|]; [now exists false|].
    rewrite sent_update_twelve
      by (cbn [encode_update];
          now rewrite (encodable_fields_encode _ _
                         (stripped_is_encodable e d C))).
    destruct (update_first _ _ _) as [[docs n]|]; eexists; reflexivity.
Qed.

Lemma update_transaction_keeps_identifiers_witness :
  map (dict_get "_id")
    (transactions (snd (update_transaction quiet_env sample_id 0 sample_world)))
  = [Some (VOid (Oid sample_id))]
  /\ map (dict_get "user_id")
       (transactions
          (snd (update_transaction quiet_env sample_id 0 sample_world)))
     = [Some (VOid (Oid sample_owner))]
  /\ exists b : bool,
       fst (update_transaction quiet_env sample_id 0 sample_world) = Return b.
Proof.
  destruct (update_transaction_keeps_identifiers
              quiet_env sample_id 0 sample_world) as (H1 & H2 & _ & H4).
  - reflexivity.
  - split; [exact H1 | split; [exact H2|]].
    apply (H4 sample_patch (Oid sample_id)); reflexivity.
Defined.

(** ** Updating the stored transaction with a given identifier *)

Lemma matches_same_id (q : value) (d d' : dict) :
  dict_get "_id" d' = dict_get "_id" d ->
  matches "_id" q d' = matches "_id" q d.
Proof. intros H. unfold matches. now rewrite H. Qed.

Lemma update_first_find (m : dict -> bool) (f : dict -> option dict)
    (docs : list dict) (d d' : dict) :
  find m docs = Some d ->
  f d = Some d' ->
  m d' = true ->
  exists docs',
    update_first m f docs
    = Some (docs', if dict_eqb d' d then 0%Z else 1%Z)
    /\ find m docs' = Some d'.
Proof.
  intros H F M. induction docs as [|a docs IH]; simpl in *; [discriminate|].
  destruct (m a) eqn:A.
  - injection H as ->. rewrite F. eexists. split; [reflexivity|].
    simpl. now rewrite M.
  - destruct (IH H) as (docs' & -> & H'). eexists. split; [reflexivity|].
    simpl. now rewrite A.
Qed.

Lemma dict_eqb_eq (a b : dict) : dict_eqb a b = true <-> a = b.
Proof.
  unfold dict_eqb. rewrite value_eqb_eq. split; congruence.
Qed.

Lemma dict_eqb_differs (k : string) (a b : dict) :
  dict_get k a <> dict_get k b -> dict_eqb a b = false.
Proof.
  intros N. destruct (dict_eqb a b) eqn:E; auto.
  apply dict_eqb_eq in E. congruence.
Qed.

Lemma dict_set_same (k : string) (v : value) (d : dict) :
  dict_get k d = Some v -> dict_set k v d = d.
Proof.
  induction d as [|[j x] d IH]; simpl; [discriminate|].
  destruct (String.eqb k j).
  - congruence.
  - intros H. now rewrite IH.
Qed.

(** What one root-version update does to the stored transaction [d] with
    the identifier [id], when it turns the document into [d']. *)
Lemma root_version_update_run (e : env) (tid : string) (line : string -> string)
    (u : update_spec) (w : world) (id : oid) (d d' : dict) :
  fault e = None ->
  ObjectId tid = Return id ->
  find (matches "_id" (VOid id)) (transactions w) = Some d ->
  encode_update e u = Return u ->
  apply_update u d = Some d' ->
  exists w',
    try_except
      (id <- lift (ObjectId tid) ;;
       modified_count <- update_one e "_id" (VOid id) u ;;
       ret (0 <? modified_count)%Z)
      (fun msg => logger_error (line msg) ;;; ret false) w
    = (Return (negb (dict_eqb d' d)), w')
    /\ find (matches "_id" (VOid id)) (transactions w') = Some d'
    /\ logged w' = logged w /\ heap w' = heap w.
Proof.
  intros F I H S U.
  rewrite flag_update_steps, I, F, (sent_update_twelve e id u S).
  destruct (update_first_find _ _ _ d d' H U) as (docs' & -> & H').
  - rewrite (matches_same_id _ d d' (apply_update_keeps_id _ _ _ U)).
    apply find_some in H. tauto.
  - exists (set_transactions docs' w).
    split; [now destruct (dict_eqb d' d)|].
    split; [exact H'|split; reflexivity].
Qed.

Lemma apply_update_other_key (field : string) (x : value) (d : dict) :
  field <> "_id" ->
  (if opt_value_eqb (dict_get "_id" (dict_set field x d)) (dict_get "_id" d)
   then Some (dict_set field x d) else None)
  = Some (dict_set field x d).
Proof.
  intros N. rewrite dict_get_set_other by congruence.
  replace (opt_value_eqb _ _) with true; auto.
  symmetry. now apply opt_value_eqb_eq.
Qed.

(** ** Accepted [$set] updates and the fields they leave alone *)

Lemma set_field_keeps_other_root (key k : string) (v : value) (d d' : dict) :
  root_of key <> k ->
  set_field key v d = Some d' ->
  dict_get k d' = dict_get k d.
Proof.
  unfold root_of, set_field.
  destruct (split_path key "") as [|h rest] eqn:P;
    [now apply split_path_not_nil in P|].
  cbn [hd set_at]. intros N.
  destruct (String.eqb h ""); [discriminate|].
  destruct (set_at rest v (dict_get h d)); simpl; [|discriminate].
  intros E. injection E as <-. apply dict_get_set_other. congruence.
Qed.

Lemma set_fields_keeps_other_roots (fields : dict) (k : string)
    (d d' : dict) :
  forallb (fun kv => negb (String.eqb (root_of (fst kv)) k)) fields = true ->
  set_fields fields d = Some d' ->
  dict_get k d' = dict_get k d.
Proof.
  revert d. induction fields as [|[key v] fields IH]; intros d F; simpl.
  - congruence.
  - simpl in F. apply andb_true_iff in F as [N F].
    apply negb_true_iff, String.eqb_neq in N.
    destruct (set_field key v d) as [d1|] eqn:E; [|discriminate].
    intros H. rewrite (IH d1 F H).
    eapply set_field_keeps_other_root; eauto.
Qed.

Lemma no_conflicts_cons_plain (k : string) (fields : dict) :
  forallb (fun q => negb (is_prefix [k] q || is_prefix q [k]))
    (map (fun kv => split_path (fst kv) "") fields) = true ->
  forallb (fun kv => negb (String.eqb (root_of (fst kv)) k)) fields = true.
Proof.
  induction fields as [|[key v] fields IH]; simpl; auto.
  intros H. apply andb_true_iff in H as [N H].
  rewrite (IH H), andb_true_r. unfold root_of.
  destruct (split_path key "") as [|h q] eqn:P;
    [now apply split_path_not_nil in P|].
  apply negb_true_iff, orb_false_iff in N as [N _]. simpl in N.
  rewrite andb_true_r in N. simpl. now rewrite String.eqb_sym, N.
Qed.

(** An accepted [$set] leaves a plain key of its field map at the value the
    map gives it. *)
Lemma set_fields_sets_plain_key (fields : dict) (k : string) (v : value)
    (d d' : dict) :
  split_path k "" = [k] ->
  k <> "" ->
  no_conflicts (map (fun kv => split_path (fst kv) "") fields) = true ->
  dict_get k fields = Some v ->
  set_fields fields d = Some d' ->
  dict_get k d' = Some v.
Proof.
  intros P K. revert d.
  induction fields as [|[key x] fields IH]; intros d C G; [discriminate|].
  cbn [map fst no_conflicts] in C. apply andb_true_iff in C as [C1 C2].
  cbn [dict_get] in G. cbn [set_fields].
  destruct (set_field key x d) as [d1|] eqn:E; [|discriminate].
  destruct (String.eqb_spec k key) as [<-|N].
  - injection G as ->. rewrite P in C1.
    intros H.
    rewrite (set_fields_keeps_other_roots fields k d1 d'
               (no_conflicts_cons_plain _ _ C1) H).
    unfold set_field in E. rewrite P in E. cbn [set_at] in E.
    apply String.eqb_neq in K. rewrite K in E. simpl in E.
    injection E as <-. apply dict_get_set_same.
  - intros H. apply (IH d1 C2 G H).
Qed.

Lemma update_first_changed (m : dict -> bool) (f : dict -> option dict)
    (docs docs' : list dict) (n : Z) :
  update_first m f docs = Some (docs', n) ->
  (0 <? n)%Z = true ->
  exists d d',
    find m docs = Some d /\ f d = Some d'
    /\ (m d' = true -> find m docs' = Some d').
Proof.
  revert docs' n. induction docs as [|a docs IH]; intros docs' n; simpl.
  - intros E. injection E as <- <-. discriminate.
  - destruct (m a) eqn:A.
    + destruct (f a) as [a'|] eqn:F; [|discriminate].
      intros E _. injection E as <- _. exists a, a'. repeat split; auto.
      intros M. simpl. now rewrite M.
    + destruct (update_first m f docs) as [[rest k]|] eqn:U; [|discriminate].
      intros E N. injection E as <- <-.
      destruct (IH rest k eq_refl N) as (d & d' & H1 & H2 & H3).
      exists d, d'. repeat split; auto.
      intros M. simpl. rewrite A. auto.
Qed.

(** A successful call of a method that sends [{"$set": fields}], with
    ["updated_at"] among the fields, leaves the transaction with the
    identifier given with that ["updated_at"]. *)
Lemma set_update_refreshes (e : env) (tid : string) (line : string -> string)
    (fields : dict) (t : Z) (w w' : world) (id : oid) :
  dict_get "updated_at" fields = Some (VDate t) ->
  ObjectId tid = Return id ->
  try_except
    (id <- lift (ObjectId tid) ;;
     modified_count <- update_one e "_id" (VOid id) (Set_ fields) ;;
     ret (0 <? modified_count)%Z)
    (fun msg => logger_error (line msg) ;;; ret false) w
  = (Return true, w') ->
  exists d',
    find (matches "_id" (VOid id)) (transactions w') = Some d'
    /\ dict_get "updated_at" d' = Some (VDate t).
Proof.
  intros G I. rewrite flag_update_steps, I.
  destruct (fault e) as [msg|]; [discriminate|].
  destruct (sent_update e id _) as [[q u']|x] eqn:X;
    [|destruct x; discriminate].
  destruct (sent_set_twelve _ _ _ _ _ X) as (-> & fields' & -> & X').
  destruct (update_first _ _ _) as [[docs n]|] eqn:U; [|discriminate].
  intros E. injection E as N <-.
  destruct (update_first_changed _ _ _ _ _ U N) as (d & d' & H & A & H').
  exists d'. split.
  - apply H'.
    rewrite (matches_same_id _ d d' (apply_update_keeps_id _ _ _ A)).
    apply find_some in H. tauto.
  - unfold apply_update in A.
    destruct (no_conflicts _) eqn:C; [|discriminate].
    destruct (set_fields fields' d) as [d1|] eqn:S; [|discriminate].
    destruct (opt_value_eqb _ _); [|discriminate].
    injection A as <-.
    eapply set_fields_sets_plain_key; eauto; try discriminate.
    eapply encode_fields_get; eauto.
Qed.

(** X16.  The six methods that write fields refresh ["updated_at"] whenever
    they succeed: after a call that returned [True], the transaction with
    the identifier given carries the time of the call. *)
Lemma field_writers_refresh_updated_at (e : env) (op : operation)
    (w : world) (id : oid) :
  match op with
  | AddNewColumnDatatype _ _ _ | UpdateTransaction _ _ | SetBaseFile _ _
  | SetPreprocessedFile _ _ | ChangeTransactionName _ _
  | UpdateCutoffDate _ _ => True
  | _ => False
  end ->
  ObjectId (identifier_of op) = Return id ->
  fst (call e op w) = Return (Flag true) ->
  exists d',
    find (matches "_id" (VOid id)) (transactions (snd (call e op w)))
    = Some d'
    /\ dict_get "updated_at" d' = Some (VDate (now e)).
Proof.
  intros K I.
  assert (R : forall m : M bool,
             fst (returning Flag m w) = Return (Flag true) ->
             snd (returning Flag m w) = snd (m w)
             /\ m w = (Return true, snd (m w))).
  { intros m. unfold returning, bind, ret.
    destruct (m w) as [[b|x] w1]; simpl; [|discriminate].
    intros E. injection E as ->. auto. }
  destruct op; try contradiction; cbn [call identifier_of] in *;
    intros S; apply R in S as [-> S].
  - eapply set_update_refreshes; [|exact I|exact S]. reflexivity.
  - destruct (nth_error (heap w) update_fields) as [d|] eqn:H.
    + rewrite (update_transaction_steps _ _ _ _ d H) in S |- *.
      cbv zeta in *. rewrite I in *.
      destruct (fault e) as [msg|]; [discriminate|].
      destruct (sent_update e id _) as [[q u']|x] eqn:X;
        [|destruct x; discriminate].
      destruct (sent_set_twelve _ _ _ _ _ X) as (-> & fields' & -> & X').
      destruct (update_first _ _ _) as [[docs n]|] eqn:U; [|discriminate].
      injection S as N. cbn [snd transactions set_transactions].
      destruct (update_first_changed _ _ _ _ _ U N) as (a & a' & F & A & F').
      exists a'. split.
      * apply F'.
        rewrite (matches_same_id _ a a' (apply_update_keeps_id _ _ _ A)).
        apply find_some in F. tauto.
      * unfold apply_update in A.
        destruct (no_conflicts _) eqn:C; [|discriminate].
        destruct (set_fields _ a) as [d1|] eqn:T; [|discriminate].
        destruct (opt_value_eqb _ _); [|discriminate].
        injection A as <-.
        eapply set_fields_sets_plain_key; eauto; try discriminate.
        eapply encode_fields_get; eauto.
        apply dict_get_set_same.
    + unfold update_transaction, try_except, pop, deref, bind in S.
      rewrite H in S. discriminate.
  - eapply set_update_refreshes; [|exact I|exact S]. reflexivity.
  - eapply set_update_refreshes; [|exact I|exact S]. reflexivity.
  - eapply set_update_refreshes; [|exact I|exact S]. reflexivity.
  - eapply set_update_refreshes; [|exact I|exact S]. reflexivity.
Qed.

(** ** C3: the timestamps *)

Lemma apply_update_root_versions_keeps (u : update_spec) (v : value)
    (k : string) (d d' : dict) :
  u = Push "rule_application_root_versions" v
  \/ u = Pull "rule_application_root_versions" v ->
  k <> "rule_application_root_versions" ->
  apply_update u d = Some d' ->
  dict_get k d' = dict_get k d.
Proof.
  intros [-> | ->] K; unfold apply_update;
    destruct (dict_get "rule_application_root_versions" d) as [[]|];
    try discriminate;
    match goal with
    | |- context [opt_value_eqb ?a ?b] => destruct (opt_value_eqb a b)
    end; try discriminate;
    intros E; injection E as <-; auto using dict_get_set_other.
Qed.

(** Neither root-version method writes ["updated_at"] (or any field but the
    list): the stored timestamps are what they were, whatever the call
    returns. *)
Lemma root_version_methods_keep_timestamps (e : env) (tid v : string)
    (w : world) (k : string) :
  k <> "rule_application_root_versions" ->
  map (dict_get k)
    (transactions (snd (add_rule_application_root_version e tid v w)))
  = map (dict_get k) (transactions w)
  /\ map (dict_get k)
       (transactions (snd (remove_rule_application_root_version e tid v w)))
     = map (dict_get k) (transactions w).
Proof.
  intros K.
  unfold add_rule_application_root_version,
    remove_rule_application_root_version.
  rewrite !flag_update_steps.
  destruct (ObjectId tid) as [id|x]; [|split; reflexivity].
  destruct (fault e) as [msg|]; [split; reflexivity|].
  split;
    (destruct (sent_update e id _) as [[q u']|x] eqn:S;
     [|destruct x; reflexivity]);
    [rewrite (sent_root_version_update _ _ v _ _ _ (or_introl eq_refl) S)
    |rewrite (sent_root_version_update _ _ v _ _ _ (or_intror eq_refl) S)];
    destruct (update_first _ _ _) as [[docs n]|] eqn:U;
    try reflexivity; cbn [snd transactions set_transactions];
    (eapply update_first_keeps; [|exact U]); intros a a' _;
    eapply apply_update_root_versions_keeps; eauto.
Qed.

Lemma returning_world {A : Type} (f : A -> result) (m : M A) (w : world) :
  snd (returning f m w) = snd (m w).
Proof.
  unfold returning, bind, ret. now destruct (m w) as [[a|x] w1].
Qed.

Lemma set_update_keeps_other_roots (e : env) (tid : string)
    (line : string -> string) (fields : dict) (k : string) (w : world) :
  forallb (fun kv => negb (String.eqb (root_of (fst kv)) k)) fields = true ->
  map (dict_get k)
    (transactions
       (snd (try_except
               (id <- lift (ObjectId tid) ;;
                modified_count <- update_one e "_id" (VOid id) (Set_ fields) ;;
                ret (0 <? modified_count)%Z)
               (fun msg => logger_error (line msg) ;;; ret false) w)))
  = map (dict_get k) (transactions w).
Proof.
  intros F. rewrite flag_update_steps.
  destruct (ObjectId tid) as [id|x]; [|reflexivity].
  destruct (fault e) as [msg|]; [reflexivity|].
  destruct (sent_update e id _) as [[q u']|x] eqn:X;
    [|destruct x; reflexivity].
  destruct (sent_set_keys _ _ _ _ _ X) as (fields' & -> & K).
  destruct (update_first _ _ _) as [[docs n]|] eqn:U; [|reflexivity].
  cbn [snd transactions set_transactions].
  eapply update_first_keeps; [|exact U]. intros a a' _.
  unfold apply_update.
  destruct (no_conflicts _); [|discriminate].
  destruct (set_fields fields' a) as [d1|] eqn:S; [|discriminate].
  destruct (opt_value_eqb _ _); [|discriminate].
  intros E. injection E as <-.
  eapply set_fields_keeps_other_roots; [|exact S].
  exact (same_keys_same_forallb
           (fun key => negb (String.eqb (root_of key) k)) _ _ K F).
Qed.

Lemma forallb_dict_set (p : string * value -> bool) (k : string) (v : value)
    (d : dict) :
  p (k, v) = true -> forallb p d = true -> forallb p (dict_set k v d) = true.
Proof.
  intros P. induction d as [|[j x] d IH]; simpl.
  - now rewrite P.
  - intros H. apply andb_true_iff in H as [H1 H2].
    destruct (String.eqb_spec k j) as [<-|N]; simpl.
    + now rewrite P, H2.
    + now rewrite H1, IH.
Qed.

Lemma forallb_dict_pop (p : string * value -> bool) (k : string) (d : dict) :
  forallb p d = true -> forallb p (dict_pop k d) = true.
Proof.
  unfold dict_pop. induction d as [|[j x] d IH]; simpl; auto.
  intros H. apply andb_true_iff in H as [H1 H2].
  destruct (negb (String.eqb k j)); simpl; auto. now rewrite H1, IH.
Qed.

(** X17.  No method stamps ["created_at"] after creation: the methods that
    write fields of a transaction leave every stored ["created_at"] as it is.
    (A generic update passes on the entries of the caller's map; it leaves
    ["created_at"] alone unless that map itself addresses it.) *)
Lemma writers_keep_created_at (e : env) (op : operation) (w : world) :
  match op with
  | AddNewColumnDatatype _ _ _ | SetBaseFile _ _ | SetPreprocessedFile _ _
  | ChangeTransactionName _ _ | UpdateCutoffDate _ _
  | AddRuleApplicationRootVersion _ _
  | RemoveRuleApplicationRootVersion _ _ => True
  | UpdateTransaction _ r =>
      match nth_error (heap w) r with
      | Some d =>
          forallb
            (fun kv => negb (String.eqb (root_of (fst kv)) "created_at")) d
          = true
      | None => True
      end
  | _ => False
  end ->
  map (dict_get "created_at") (transactions (snd (call e op w)))
  = map (dict_get "created_at") (transactions w).
Proof.
  destruct op; try contradiction; cbn [call]; rewrite returning_world;
    intros K.
  - apply set_update_keeps_other_roots. reflexivity.
  - destruct (nth_error (heap w) update_fields) as [d|] eqn:H.
    + rewrite (update_transaction_steps _ _ _ _ d H). cbv zeta.
      destruct (ObjectId transaction_id) as [id|x]; [|reflexivity].
      destruct (fault e) as [msg|]; [reflexivity|].
      destruct (sent_update e id _) as [[q u']|x] eqn:X;
        [|destruct x; reflexivity].
      destruct (sent_set_keys _ _ _ _ _ X) as (fields' & -> & K').
      destruct (update_first _ _ _) as [[docs n]|] eqn:U; [|reflexivity].
      cbn [snd transactions set_transactions].
      eapply update_first_keeps; [|exact U]. intros a a' _.
      unfold apply_update.
      destruct (no_conflicts _); [|discriminate].
      destruct (set_fields _ a) as [d1|] eqn:S; [|discriminate].
      destruct (opt_value_eqb _ _); [|discriminate].
      intros E. injection E as <-.
      eapply set_fields_keeps_other_roots; [|exact S].
      apply (same_keys_same_forallb
               (fun key => negb (String.eqb (root_of key) "created_at"))
               _ _ K').
      unfold stripped_and_stamped, add_timestamps.
      apply forallb_dict_set; [reflexivity|].
      now apply forallb_dict_pop, forallb_dict_pop.
    + unfold update_transaction, try_except, pop, deref, bind.
      now rewrite H.
  - apply set_update_keeps_other_roots. reflexivity.
  - apply set_update_keeps_other_roots. reflexivity.
  - apply set_update_keeps_other_roots. reflexivity.
  - apply set_update_keeps_other_roots. reflexivity.
  - apply root_version_methods_keep_timestamps. discriminate.
  - apply root_version_methods_keep_timestamps. discriminate.
Qed.

(** C3 (the code departs from it).  On a stored transaction last updated at
    1000, at time 2000: adding a root version succeeds and removing one
    succeeds, and after either the transaction's [updated_at] is still 1000,
    where [set_base_file] on the same transaction leaves 2000. *)
Theorem root_version_methods_leave_updated_at :
  now quiet_env = 2000%Z
  /\ map (dict_get "updated_at") (transactions sample_world)
     = [Some (VDate 1000)]
  /\ fst (add_rule_application_root_version quiet_env sample_id "v3"
            sample_world) = Return true
  /\ map (dict_get "updated_at")
       (transactions
          (snd (add_rule_application_root_version quiet_env sample_id "v3"
                  sample_world)))
     = [Some (VDate 1000)]
  /\ fst (remove_rule_application_root_version quiet_env sample_id "v1"
            sample_world) = Return true
  /\ map (dict_get "updated_at")
       (transactions
          (snd (remove_rule_application_root_version quiet_env sample_id "v1"
                  sample_world)))
     = [Some (VDate 1000)]
  /\ map (dict_get "updated_at")
       (transactions
          (snd (set_base_file quiet_env sample_id "v10" sample_world)))
     = [Some (VDate 2000)].
Proof. repeat split; vm_compute; reflexivity. Qed.

(** ** C4: an identifier that does not parse *)

(** C4 (the code departs from it).  [get_transaction] on a string that is no
    identifier does not return [None]: [ObjectId] raises [InvalidId], which
    is no [PyMongoError], so the exception leaves the method and nothing is
    logged. *)
Theorem get_transaction_invalid_id_raises (e : env) (w : world) :
  get_transaction e "not-an-id" w = (Raise (InvalidId "not-an-id"), w).
Proof. reflexivity. Qed.

(** ** C5: a failing store *)

Lemma returning_run {A : Type} (f : A -> result) (m : M A) (w w' : world)
    (o : outcome A) :
  m w = (o, w') ->
  returning f m w
  = (match o with Return a => Return (f a) | Raise x => Raise x end, w').
Proof.
  intros H. unfold returning, bind, ret. rewrite H. now destruct o.
Qed.

Ltac store_fails I F :=
  unfold get_transaction, create_transaction, delete_transaction,
    get_transactions_by_user, try_except, find_one, find_all, insert_one,
    delete_one, store_call, bind, lift, raise, ret, logger_error;
  rewrite I, F; reflexivity.

Ltac flag_update_fails I F :=
  unfold add_new_column_datatype, set_base_file, set_preprocessed_file,
    change_transaction_name, update_cutoff_date,
    add_rule_application_root_version, remove_rule_application_root_version;
  cbv zeta; rewrite flag_update_steps, I, F; reflexivity.

(** C5.  For every operation of the repository: when the store call fails
    with a [PyMongoError], the method catches it, logs its line and returns
    its sentinel ([None] for get and create, the empty list for the listing,
    [False] for the others); the collection is as it was. *)
Theorem store_failure_yields_sentinel (e : env) (op : operation) (w : world)
    (msg : string) :
  fault e = Some msg ->
  reaches_store op w = true ->
  fst (call e op w) = Return (sentinel op)
  /\ logged (snd (call e op w)) = logged w ++ [error_line op msg]
  /\ transactions (snd (call e op w)) = transactions w.
Proof.
  intros F R. unfold reaches_store, parses in R.
  apply andb_true_iff in R as [P R].
  destruct (ObjectId (identifier_of op)) as [id|] eqn:I; [clear P|discriminate].
  destruct op; cbn [identifier_of] in I; cbn [call sentinel error_line].
  4: { destruct (nth_error (heap w) update_fields) as [d|] eqn:H;
         [|discriminate].
       erewrite returning_run; cycle 1.
       - rewrite (update_transaction_steps _ _ _ _ d H). cbv zeta.
         rewrite I, F. reflexivity.
       - repeat split. }
  all: erewrite returning_run; cycle 1;
    [first [store_fails I F | flag_update_fails I F] | repeat split].
Qed.

Lemma store_failure_yields_sentinel_witness :
  fst (call failing_env (UpdateTransaction sample_id 0) sample_world)
  = Return (Flag false)
  /\ logged (snd (call failing_env (UpdateTransaction sample_id 0)
                   sample_world))
     = ["Database error while updating transaction: connection refused"]
  /\ transactions (snd (call failing_env (UpdateTransaction sample_id 0)
                         sample_world))
     = [sample_transaction].
Proof.
  apply (store_failure_yields_sentinel failing_env
           (UpdateTransaction sample_id 0) sample_world "connection refused");
    reflexivity.
Defined.

(** ** C6: the listing of an owner's transactions *)

(** What the loop body makes of one document, by the three cases of its
    [base_file]: unset, found by the version lookup, not found. *)
Lemma list_entry_location (e : env) (t t' : dict) :
  list_entry e t = Return t' ->
  let base_file := dict_get_default "base_file" VNone t in
  (truthy base_file = false ->
   dict_get "base_file_location" t' = Some (VStr ""))
  /\ (forall version,
        truthy base_file = true ->
        get_version e base_file = Some version ->
        truthy (VDict version) = true ->
        dict_get "base_file_location" t'
        = Some (dict_get_default "files_path" (VStr "") version))
  /\ (truthy base_file = true ->
      get_version e base_file = None ->
      dict_get "base_file_location" t' = dict_get "base_file_location" t).
Proof.
  unfold list_entry, getitem.
  destruct (dict_get "_id" t) as [i|] eqn:I; [|discriminate].
  destruct (dict_get "user_id" (dict_set "_id" _ t)) as [u|] eqn:U;
    [|discriminate].
  set (t2 := dict_set "user_id" _ _).
  assert (B : forall k, k <> "_id" -> k <> "user_id" ->
                dict_get k t2 = dict_get k t).
  { intros k K1 K2. subst t2. now rewrite !dict_get_set_other. }
  unfold dict_get_default.
  rewrite (B "base_file") by discriminate.
  destruct (dict_get "base_file" t) as [b|]; cbv zeta.
  - destruct (truthy b) eqn:T.
    + destruct (get_version e b) as [version|].
      * destruct (truthy (VDict version)) eqn:V; intros E; injection E as <-;
          repeat split; try discriminate.
        -- intros v' _ X _. injection X as <-. apply dict_get_set_same.
        -- intros v' _ X Y. injection X as <-. congruence.
      * intros E. injection E as <-. repeat split; try discriminate.
        intros _ _. apply B; discriminate.
    + intros E. injection E as <-. repeat split; try discriminate.
      intros _. apply dict_get_set_same.
  - simpl. intros E. injection E as <-. repeat split; try discriminate.
    intros _. apply dict_get_set_same.
Qed.

Lemma list_entries_pointwise (e : env) (cursor l : list dict) :
  list_entries e cursor = Return l ->
  Forall2 (fun d t => list_entry e d = Return t) cursor l.
Proof.
  revert l. induction cursor as [|d cursor IH]; intros l; simpl.
  - intros E. injection E as <-. constructor.
  - destruct (list_entry e d) as [t|] eqn:T; [|discriminate].
    destruct (list_entries e cursor) as [l'|]; [|discriminate].
    intros E. injection E as <-. constructor; auto.
Qed.

Lemma list_entry_raises (e : env) (d : dict) (x : exn) :
  list_entry e d = Raise x -> exists k, x = KeyError k.
Proof.
  unfold list_entry, getitem.
  repeat match goal with
         | |- context [match dict_get ?k ?t with _ => _ end] =>
             destruct (dict_get k t)
         | |- context [if ?b then _ else _] => destruct b
         | |- context [match get_version ?a ?b with _ => _ end] =>
             destruct (get_version a b)
         end;
    try discriminate; intros E; injection E as <-; eauto.
Qed.

Lemma list_entries_raise (e : env) (cursor : list dict) (x : exn) :
  list_entries e cursor = Raise x -> exists k, x = KeyError k.
Proof.
  induction cursor as [|d cursor IH]; simpl; [discriminate|].
  destruct (list_entry e d) as [t|y] eqn:T.
  - destruct (list_entries e cursor) as [l|y]; [discriminate|].
    intros E. injection E as <-. now apply IH.
  - intros E. injection E as <-. eapply list_entry_raises, T.
Qed.

(** The listing holds one entry for each stored transaction whose
    ["user_id"] answers to the owner, in stored order, each made by the loop
    body; the store is not changed. *)
Lemma listing_is_the_owners (e : env) (user_id : string) (w w' : world)
    (uid : oid) (l : list dict) :
  ObjectId user_id = Return uid ->
  fault e = None ->
  get_transactions_by_user e user_id w = (Return l, w') ->
  w' = w
  /\ Forall2 (fun d t => list_entry e d = Return t)
       (filter (matches "user_id" (VOid uid)) (transactions w)) l.
Proof.
  intros I F.
  unfold get_transactions_by_user, try_except, find_all, store_call, bind,
    lift, ret.
  rewrite I, F, encode_owner_filter.
  destruct (list_entries e _) as [l'|x] eqn:L.
  - intros E. injection E as <- <-. split; auto.
    now apply list_entries_pointwise.
  - destruct (list_entries_raise _ _ _ L) as [k ->]. discriminate.
Qed.

(** C6 (the code departs from it).  The owner's one transaction has the
    base file ["v9"], for which the version lookup finds nothing: the entry
    listed for it carries no ["base_file_location"] at all, where the claim
    has the empty string. *)
Theorem listing_omits_location_on_lookup_miss :
  exists entry : dict,
    get_transactions_by_user quiet_env sample_owner sample_world
    = (Return [entry], sample_world)
    /\ dict_get "user_id" entry = Some (VStr sample_owner)
    /\ dict_get "base_file" entry = Some (VStr "v9")
    /\ get_version quiet_env (VStr "v9") = None
    /\ dict_get "base_file_location" entry = None.
Proof. eexists. repeat split; vm_compute; reflexivity. Qed.

(** ** C7: removing a root version *)

Lemma filter_version_ids (v : string) (ids : list string) :
  filter (fun x => negb (value_eqb x (VStr v))) (map VStr ids)
  = map VStr (filter (fun x => negb (String.eqb x v)) ids).
Proof.
  induction ids as [|a ids IH]; simpl; auto.
  destruct (String.eqb a v); simpl; now rewrite IH.
Qed.

Lemma map_VStr_injective (a b : list string) :
  map VStr a = map VStr b -> a = b.
Proof.
  revert b. induction a as [|x a IH]; intros [|y b]; simpl;
    try discriminate; auto.
  intros E. injection E as -> E. f_equal. auto.
Qed.

Lemma filter_keeps_all_iff (v : string) (ids : list string) :
  filter (fun x => negb (String.eqb x v)) ids = ids
  <-> existsb (String.eqb v) ids = false.
Proof.
  induction ids as [|a ids IH]; simpl; [tauto|].
  rewrite (String.eqb_sym v a).
  destruct (String.eqb a v); simpl.
  - split; [|discriminate]. intros E.
    assert (L : (List.length (filter (fun x => negb (String.eqb x v)) ids)
                 <= List.length ids)%nat) by apply filter_length_le.
    rewrite E in L. simpl in L. lia.
  - rewrite <- IH. split; [now intros [= ->] | now intros ->].
Qed.

(** C7.  For the stored transaction with the identifier given, whose
    root-version list holds the version identifiers [ids],
    [remove_rule_application_root_version] with the version [v] leaves the
    list [ids] without its entries equal to [v]: every occurrence of [v] is
    gone, every other entry is kept, in its original order, and no other
    field of the transaction changes.  The flag returned is true exactly
    when [v] occurred. *)
Theorem remove_root_version_removes_all (e : env) (tid v : string)
    (w : world) (id : oid) (d : dict) (ids : list string) :
  fault e = None ->
  ObjectId tid = Return id ->
  find (matches "_id" (VOid id)) (transactions w) = Some d ->
  dict_get "rule_application_root_versions" d = Some (VList (map VStr ids)) ->
  exists (w' : world) (d' : dict),
    remove_rule_application_root_version e tid v w
    = (Return (existsb (String.eqb v) ids), w')
    /\ find (matches "_id" (VOid id)) (transactions w') = Some d'
    /\ dict_get "rule_application_root_versions" d'
       = Some (VList (map VStr (filter (fun x => negb (String.eqb x v)) ids)))
    /\ (forall k, k <> "rule_application_root_versions" ->
          dict_get k d' = dict_get k d).
Proof.
  intros F I H R.
  set (kept := filter (fun x => negb (String.eqb x v)) ids).
  set (d' := dict_set "rule_application_root_versions"
               (VList (map VStr kept)) d).
  assert (U : apply_update
                (Pull "rule_application_root_versions" (VStr v)) d = Some d').
  { unfold apply_update. rewrite R, filter_version_ids.
    now apply apply_update_other_key. }
  destruct (root_version_update_run e tid
              (fun msg => "Error removing root version: " ++ msg)%string
              (Pull "rule_application_root_versions" (VStr v))
              w id d d' F I H eq_refl U) as (w' & E & H' & _).
  exists w', d'. split; [|split; [exact H'|split]].
  - unfold remove_rule_application_root_version. rewrite E. f_equal. f_equal.
    destruct (existsb (String.eqb v) ids) eqn:X.
    + apply negb_true_iff, dict_eqb_differs
        with (k := "rule_application_root_versions").
      subst d'. rewrite dict_get_set_same, R. intros Y.
      injection Y as Y.
      assert (K : kept = ids) by now apply map_VStr_injective.
      apply filter_keeps_all_iff in K. congruence.
    + apply negb_false_iff, dict_eqb_eq. subst d' kept.
      apply filter_keeps_all_iff in X. rewrite X.
      now apply dict_set_same.
  - subst d'. apply dict_get_set_same.
  - intros k K. subst d'. now apply dict_get_set_other.
Qed.

Lemma remove_root_version_removes_all_witness :
  exists (w' : world) (d' : dict),
    remove_rule_application_root_version quiet_env sample_id "v1" sample_world
    = (Return true, w')
    /\ find (matches "_id" (VOid (Oid sample_id))) (transactions w') = Some d'
    /\ dict_get "rule_application_root_versions" d' = Some (VList [VStr "v2"])
    /\ (forall k, k <> "rule_application_root_versions" ->
          dict_get k d' = dict_get k sample_transaction).
Proof.
  apply (remove_root_version_removes_all quiet_env sample_id "v1"
           sample_world (Oid sample_id) sample_transaction
           ["v1"; "v2"; "v1"]); reflexivity.
Defined.

(** ** C8: appending a root version *)

Lemma push_root_version (v : string) (d : dict) (l : list value) :
  root_versions d = Some l ->
  let d' := dict_set "rule_application_root_versions"
              (VList (l ++ [VStr v])) d in
  apply_update (Push "rule_application_root_versions" (VStr v)) d = Some d'
  /\ root_versions d' = Some (l ++ [VStr v])
  /\ dict_eqb d' d = false.
Proof.
  intros R d'. unfold root_versions in R.
  assert (G : dict_get "rule_application_root_versions" d'
              = Some (VList (l ++ [VStr v]))) by apply dict_get_set_same.
  repeat split.
  - unfold apply_update.
    destruct (dict_get "rule_application_root_versions" d) as [[]|];
      try discriminate; injection R as <-;
      now apply apply_update_other_key.
  - unfold root_versions. now rewrite G.
  - apply dict_eqb_differs with (k := "rule_application_root_versions").
    rewrite G. intros E.
    destruct (dict_get "rule_application_root_versions" d) as [[]|];
      try discriminate.
    injection R as <-. injection E as E.
    apply (f_equal (@List.length value)) in E.
    rewrite length_app in E. simpl in E. lia.
Qed.

(** C8.  For the stored transaction with the identifier given, whose
    root-version list is [l] (empty when the document has none yet, as on a
    fresh transaction), [add_rule_application_root_version] with the version
    [v] succeeds and leaves the list [l ++ [v]]; a second call with the same
    [v] succeeds again and leaves [l ++ [v; v]]: appended at the end, never
    deduplicated. *)
Theorem add_root_version_appends (e e' : env) (tid v : string) (w : world)
    (id : oid) (d : dict) (l : list value) :
  fault e = None ->
  fault e' = None ->
  ObjectId tid = Return id ->
  find (matches "_id" (VOid id)) (transactions w) = Some d ->
  root_versions d = Some l ->
  exists (w1 w2 : world) (d1 d2 : dict),
    add_rule_application_root_version e tid v w = (Return true, w1)
    /\ find (matches "_id" (VOid id)) (transactions w1) = Some d1
    /\ root_versions d1 = Some (l ++ [VStr v])
    /\ add_rule_application_root_version e' tid v w1 = (Return true, w2)
    /\ find (matches "_id" (VOid id)) (transactions w2) = Some d2
    /\ root_versions d2 = Some (l ++ [VStr v; VStr v]).
Proof.
  intros F F' I H R.
  destruct (push_root_version v d l R) as (U1 & R1 & N1).
  destruct (root_version_update_run e tid
              (fun msg => "Error adding root version: " ++ msg)%string
              (Push "rule_application_root_versions" (VStr v))
              w id d _ F I H eq_refl U1) as (w1 & E1 & H1 & _).
  destruct (push_root_version v _ _ R1) as (U2 & R2 & N2).
  destruct (root_version_update_run e' tid
              (fun msg => "Error adding root version: " ++ msg)%string
              (Push "rule_application_root_versions" (VStr v))
              w1 id _ _ F' I H1 eq_refl U2) as (w2 & E2 & H2 & _).
  rewrite N1 in E1. rewrite N2 in E2.
  exists w1, w2. do 2 eexists.
  repeat split; [exact E1|exact H1|exact R1|exact E2|exact H2|].
  rewrite R2, <- app_assoc. reflexivity.
Qed.

Lemma add_root_version_appends_witness :
  exists (w1 w2 : world) (d1 d2 : dict),
    add_rule_application_root_version quiet_env other_id "v1" fresh_world
    = (Return true, w1)
    /\ find (matches "_id" (VOid (Oid other_id))) (transactions w1) = Some d1
    /\ root_versions d1 = Some [VStr "v1"]
    /\ add_rule_application_root_version quiet_env other_id "v1" w1
       = (Return true, w2)
    /\ find (matches "_id" (VOid (Oid other_id))) (transactions w2) = Some d2
    /\ root_versions d2 = Some [VStr "v1"; VStr "v1"].
Proof.
  eapply (add_root_version_appends quiet_env quiet_env other_id "v1"
            fresh_world (Oid other_id) _ []); reflexivity.
Defined.

(** ** C9: deleting, then reading *)

Lemma delete_first_removes (m : dict -> bool) (docs : list dict) :
  existsb m docs = true ->
  exists pre d post,
    docs = pre ++ d :: post /\ m d = true
    /\ delete_first m docs = (pre ++ post, 1%Z)
    /\ filter m docs = d :: filter m post.
Proof.
  induction docs as [|a docs IH]; simpl; [discriminate|].
  destruct (m a) eqn:A; simpl.
  - intros _. exists [], a, docs. simpl. auto.
  - intros H. destruct (IH H) as (pre & d & post & T & M & D & E).
    exists (a :: pre), d, post. rewrite D, E, T. auto.
Qed.

Lemma delete_first_absent (m : dict -> bool) (docs : list dict) :
  existsb m docs = false -> delete_first m docs = (docs, 0%Z).
Proof.
  induction docs as [|a docs IH]; simpl; auto.
  destruct (m a); simpl; [discriminate|]. intros H. now rewrite IH.
Qed.

Lemma find_none_of_existsb {A : Type} (m : A -> bool) (l : list A) :
  existsb m l = false -> find m l = None.
Proof.
  induction l as [|a l IH]; simpl; auto.
  destruct (m a); simpl; [discriminate | auto].
Qed.

Lemma existsb_false_of_filter {A : Type} (m : A -> bool) (l : list A) :
  filter m l = [] -> existsb m l = false.
Proof.
  induction l as [|a l IH]; simpl; auto.
  destruct (m a); simpl; [discriminate | auto].
Qed.

(** C9.  When the store answers and holds at most one document with the
    identifier given (its index on ["_id"] is unique),
    [delete_transaction] followed by [get_transaction] on the same
    identifier returns [None].  The flag of the delete is true exactly when
    a document had that identifier, and then that document, and no other,
    is gone; when the flag is false the collection is as it was. *)
Theorem delete_then_get_not_found (e e' : env) (tid : string) (w : world)
    (id : oid) :
  ObjectId tid = Return id ->
  fault e = None ->
  fault e' = None ->
  (List.length (filter (matches "_id" (VOid id)) (transactions w)) <= 1)%nat ->
  exists (b : bool) (w1 : world),
    delete_transaction e tid w = (Return b, w1)
    /\ get_transaction e' tid w1 = (Return None, w1)
    /\ b = existsb (matches "_id" (VOid id)) (transactions w)
    /\ (b = true ->
        exists pre d post,
          transactions w = pre ++ d :: post
          /\ matches "_id" (VOid id) d = true
          /\ transactions w1 = pre ++ post)
    /\ (b = false -> transactions w1 = transactions w).
Proof.
  intros I F F' U.
  unfold delete_transaction, get_transaction, try_except, delete_one,
    find_one, store_call, bind, lift, ret.
  rewrite I, F, F', !encode_id_filter.
  destruct (existsb (matches "_id" (VOid id)) (transactions w)) eqn:X.
  - destruct (delete_first_removes _ _ X) as (pre & d & post & T & M & D & L).
    rewrite D. exists true. eexists. split; [reflexivity|].
    cbn [transactions set_transactions].
    assert (N : existsb (matches "_id" (VOid id)) (pre ++ post) = false).
    { rewrite L in U. simpl in U.
      assert (P : filter (matches "_id" (VOid id)) post = []).
      { destruct (filter _ post); [reflexivity | simpl in U; lia]. }
      rewrite existsb_app, (existsb_false_of_filter _ _ P), orb_false_r.
      apply existsb_false_of_filter.
      rewrite T, filter_app in L. simpl in L. rewrite M, P in L.
      destruct (filter _ pre); [reflexivity|].
      simpl in L. injection L as _ L. now destruct l. }
    rewrite (find_none_of_existsb _ _ N).
    repeat split; auto.
    + intros _. now exists pre, d, post.
    + discriminate.
  - rewrite (delete_first_absent _ _ X). exists false. eexists.
    split; [reflexivity|]. cbn [transactions set_transactions].
    rewrite (find_none_of_existsb _ _ X).
    repeat split; auto. discriminate.
Qed.

Lemma delete_then_get_not_found_witness :
  exists (b : bool) (w1 : world),
    delete_transaction quiet_env sample_id sample_world = (Return b, w1)
    /\ get_transaction quiet_env sample_id w1 = (Return None, w1)
    /\ b = true
    /\ transactions w1 = [].
Proof.
  destruct (delete_then_get_not_found quiet_env quiet_env sample_id
              sample_world (Oid sample_id))
    as (b & w1 & D & G & B & R & _);
    [reflexivity | reflexivity | reflexivity | simpl; lia |].
  exists b, w1. repeat split; auto.
  destruct (R B) as (pre & d & post & T & _ & ->).
  destruct pre as [|a [|? ?]]; simpl in T; try discriminate.
  now injection T as _ <-.
Defined.

(** ** C10: the generic update writes through the caller's reference *)

(** C10.  [update_transaction] mutates the field map it is given: when the
    call is over, whatever its outcome, the caller's dictionary has lost its
    ["_id"] and ["user_id"] keys and carries an ["updated_at"] entry with the
    time of the call; its other entries are as they were. *)
Theorem update_transaction_mutates_caller_map (e : env) (tid : string)
    (r : nat) (w : world) (d : dict) :
  nth_error (heap w) r = Some d ->
  let after := heap (snd (update_transaction e tid r w)) in
  nth_error after r
  = Some (dict_set "updated_at" (VDate (now e))
            (dict_pop "user_id" (dict_pop "_id" d)))
  /\ (forall d', nth_error after r = Some d' ->
        dict_get "_id" d' = None
        /\ dict_get "user_id" d' = None
        /\ dict_get "updated_at" d' = Some (VDate (now e))
        /\ forall k, k <> "_id" -> k <> "user_id" -> k <> "updated_at" ->
             dict_get k d' = dict_get k d).
Proof.
  intros H after.
  assert (A : nth_error after r = Some (stripped_and_stamped e d)).
  { subst after. rewrite (update_transaction_steps e tid r w d H). cbv zeta.
    destruct (ObjectId tid) as [id|x];
      [destruct (fault e) as [msg|];
        [|destruct (sent_update _ _ _) as [[q u']|x];
          [destruct (update_first _ _ _) as [[docs n]|]|destruct x]]|];
      cbn [snd heap set_heap log_line set_transactions handled];
      eapply nth_error_list_replace, H. }
  split; [exact A|].
  intros d' E. rewrite A in E. injection E as <-.
  unfold stripped_and_stamped, add_timestamps.
  repeat split.
  - rewrite dict_get_set_other by discriminate.
    rewrite dict_get_pop_other by discriminate. apply dict_get_pop_same.
  - rewrite dict_get_set_other by discriminate. apply dict_get_pop_same.
  - apply dict_get_set_same.
  - intros k K1 K2 K3.
    rewrite dict_get_set_other, !dict_get_pop_other; auto.
Qed.

Lemma update_transaction_mutates_caller_map_witness :
  nth_error
    (heap (snd (update_transaction quiet_env sample_id 0 sample_world))) 0
  = Some [("name", VStr "bonds"); ("updated_at", VDate 2000)].
Proof.
  apply (update_transaction_mutates_caller_map
           quiet_env sample_id 0 sample_world sample_patch).
  reflexivity.
Defined.

(** ** What every method keeps *)

Lemma try_except_catches {A : Type} (body : M A) (line : string -> string)
    (a : A) (w : world) (msg : string) :
  fst (try_except body (fun m => logger_error (line m) ;;; ret a) w)
  <> Raise (PyMongoError msg).
Proof.
  unfold try_except, bind, ret, logger_error.
  destruct (body w) as [[x|[]] w1]; simpl; discriminate.
Qed.

Lemma returning_raises {A : Type} (f : A -> result) (m : M A) (w : world)
    (x : exn) :
  fst (returning f m w) = Raise x -> fst (m w) = Raise x.
Proof.
  unfold returning, bind, ret.
  destruct (m w) as [[a|y] w1]; simpl; [discriminate | congruence].
Qed.

(** X13.  No [PyMongoError] leaves a method, whatever the store does and
    whatever the arguments: a failing call, a write the store refuses and a
    duplicate key are all answered inside the method. *)
Lemma no_store_error_escapes (e : env) (op : operation) (w : world)
    (msg : string) :
  fst (call e op w) <> Raise (PyMongoError msg).
Proof.
  intros H. destruct op; cbn [call] in H; apply returning_raises in H;
    revert H; apply try_except_catches.
Qed.

Lemma delete_first_keeps_forallb (p m : dict -> bool) (docs : list dict) :
  forallb p docs = true -> forallb p (fst (delete_first m docs)) = true.
Proof.
  induction docs as [|a docs IH]; simpl; auto.
  intros H. apply andb_true_iff in H as [H1 H2].
  destruct (m a); simpl; auto.
  destruct (delete_first m docs) as [rest n]. simpl in *.
  now rewrite H1, IH.
Qed.

Lemma owner_is_oid_of_map (docs docs' : list dict) :
  map (dict_get "user_id") docs' = map (dict_get "user_id") docs ->
  forallb owner_is_oid docs = true -> forallb owner_is_oid docs' = true.
Proof.
  revert docs'. induction docs as [|a docs IH]; intros [|b docs'];
    simpl; try discriminate; auto.
  intros E H. injection E as E1 E2. apply andb_true_iff in H as [H1 H2].
  rewrite (IH _ E2 H2), andb_true_r. unfold owner_is_oid in *.
  now rewrite E1.
Qed.

Lemma reads_keep_world (e : env) (s : string) (w : world) :
  transactions (snd (get_transaction e s w)) = transactions w
  /\ transactions (snd (get_transactions_by_user e s w)) = transactions w.
Proof.
  unfold get_transaction, get_transactions_by_user, try_except, find_one,
    find_all, store_call, bind, lift, raise, ret, logger_error.
  destruct (ObjectId s) as [id|x] eqn:I;
    [|rewrite (ObjectId_raises _ _ I); split; reflexivity].
  destruct (fault e) as [msg|]; [split; reflexivity|]. split.
  - destruct (encode_filter e "_id" (VOid id)) as [q|[]]; try reflexivity.
    destruct (find _ _) as [t|]; [|reflexivity].
    destruct (truthy (VDict t)); [|reflexivity].
    destruct (getitem "_id" t) as [i|[]]; try reflexivity.
    destruct (getitem "user_id" _) as [u|[]]; reflexivity.
  - destruct (encode_filter e "user_id" (VOid id)) as [q|[]];
      try reflexivity.
    destruct (list_entries e _) as [l|[]]; reflexivity.
Qed.

(** What [create_transaction] leaves in the collection: nothing new, or one
    document more, under the generated identifier and with an identifier
    for its owner. *)
Lemma create_transaction_world (e : env)
    (user_id name base_file_path : string) (c1 c2 : option string)
    (w : world) :
  let w1 := snd (create_transaction e user_id name base_file_path c1 c2 w) in
  transactions w1 = transactions w
  \/ (existsb (matches "_id" (VOid (fresh_oid e))) (transactions w) = false
      /\ exists (o : oid) (rest : dict),
           transactions w1
           = transactions w
             ++ [("_id", VOid (fresh_oid e)) :: ("user_id", VOid o) :: rest]).
Proof.
  cbv zeta.
  unfold create_transaction, try_except, insert_one, store_call, bind,
    lift, raise, ret, logger_error.
  destruct (ObjectId user_id) as [uid|x] eqn:I;
    [|rewrite (ObjectId_raises _ _ I); now left].
  destruct (fault e) as [msg|]; [now left|].
  destruct uid as [o|h].
  - destruct c1, c2;
      cbn [dict_set add_timestamps String.eqb Ascii.eqb Bool.eqb dict_get
           dict_get_default];
      rewrite encodable_fields_encode by reflexivity;
      cbn [String.eqb Ascii.eqb Bool.eqb dict_get dict_get_default];
      destruct (existsb _ _) eqn:X; cbn [snd transactions set_transactions];
      try (now left); right; (split; [reflexivity|]); eauto.
  - destruct c1, c2;
      cbn [dict_set add_timestamps String.eqb Ascii.eqb Bool.eqb dict_get
           dict_get_default encode_fields has_nul string_forallb negb
           andb bson_encode zero];
      (destruct (short_id e h) as [o|[]]; [|now left ..]);
      change (int64 0) with true;
      cbn [String.eqb Ascii.eqb Bool.eqb dict_get dict_get_default];
      destruct (existsb _ _) eqn:X; cbn [snd transactions set_transactions];
      try (now left); right; (split; [reflexivity|]); eauto.
Qed.

(** X14.  The owner of every stored transaction is an identifier, and stays
    one: [create_transaction] stores [ObjectId(user_id)] and no method
    rewrites it. *)
Lemma owners_stay_identifiers (e : env) (op : operation) (w : world) :
  forallb owner_is_oid (transactions w) = true ->
  forallb owner_is_oid (transactions (snd (call e op w))) = true.
Proof.
  intros O. destruct op; cbn [call]; rewrite returning_world.
  - now rewrite (proj1 (reads_keep_world e _ w)).
  - destruct (create_transaction_world e user_id name base_file_path
                primary_asset_class secondary_asset_class w)
      as [->|(_ & o & rest & ->)]; [exact O|].
    rewrite forallb_app, O. reflexivity.
  - eapply owner_is_oid_of_map; [|exact O].
    apply set_update_keeps_other_roots. reflexivity.
  - eapply owner_is_oid_of_map; [|exact O].
    now apply update_transaction_keeps_id_fields.
  - unfold delete_transaction, try_except, delete_one, store_call, bind,
      lift, raise, ret, logger_error.
    destruct (ObjectId transaction_id) as [id|x] eqn:I;
      [|rewrite (ObjectId_raises _ _ I); exact O].
    destruct (fault e) as [msg|]; [exact O|].
    destruct (encode_filter e "_id" (VOid id)) as [q|[]]; try exact O.
    pose proof (delete_first_keeps_forallb owner_is_oid
                  (matches "_id" q) _ O) as D.
    destruct (delete_first _ _) as [docs n]. exact D.
  - now rewrite (proj2 (reads_keep_world e _ w)).
  - eapply owner_is_oid_of_map; [|exact O].
    apply set_update_keeps_other_roots. reflexivity.
  - eapply owner_is_oid_of_map; [|exact O].
    apply set_update_keeps_other_roots. reflexivity.
  - eapply owner_is_oid_of_map; [|exact O].
    apply set_update_keeps_other_roots. reflexivity.
  - eapply owner_is_oid_of_map; [|exact O].
    apply set_update_keeps_other_roots. reflexivity.
  - eapply owner_is_oid_of_map; [|exact O].
    apply root_version_methods_keep_timestamps. discriminate.
  - eapply owner_is_oid_of_map; [|exact O].
    apply root_version_methods_keep_timestamps. discriminate.
Qed.

Lemma same_ids_same_matches (q : value) (docs docs' : list dict) :
  map (dict_get "_id") docs' = map (dict_get "_id") docs ->
  List.length (filter (matches "_id" q) docs')
  = List.length (filter (matches "_id" q) docs).
Proof.
  revert docs'. induction docs as [|a docs IH]; intros [|b docs'];
    simpl; try discriminate; auto.
  intros E. injection E as E1 E2.
  rewrite (matches_same_id q a b E1).
  destruct (matches "_id" q a); simpl; rewrite (IH _ E2); reflexivity.
Qed.

Lemma flag_update_keeps_ids (e : env) (tid : string)
    (line : string -> string) (u : update_spec) (w : world) :
  map (dict_get "_id")
    (transactions
       (snd (try_except
               (id <- lift (ObjectId tid) ;;
                modified_count <- update_one e "_id" (VOid id) u ;;
                ret (0 <? modified_count)%Z)
               (fun msg => logger_error (line msg) ;;; ret false) w)))
  = map (dict_get "_id") (transactions w).
Proof.
  rewrite flag_update_steps.
  destruct (ObjectId tid) as [id|x]; [|reflexivity].
  destruct (fault e) as [msg|]; [reflexivity|].
  destruct (sent_update e id u) as [[q u']|[]]; try reflexivity.
  destruct (update_first _ _ _) as [[docs n]|] eqn:U; [|reflexivity].
  cbn [snd transactions set_transactions].
  eapply update_first_keeps; [|exact U]. intros a a' _.
  apply apply_update_keeps_id.
Qed.

Lemma delete_first_shrinks (m m' : dict -> bool) (docs : list dict) :
  (List.length (filter m (fst (delete_first m' docs)))
   <= List.length (filter m docs))%nat.
Proof.
  induction docs as [|a docs IH]; simpl; auto.
  destruct (m' a); simpl.
  - destruct (m a); simpl; lia.
  - destruct (delete_first m' docs) as [rest n]. simpl in *.
    destruct (m a); simpl; lia.
Qed.

Lemma ids_unique_of_map (docs docs' : list dict) :
  map (dict_get "_id") docs' = map (dict_get "_id") docs ->
  ids_unique docs -> ids_unique docs'.
Proof.
  intros E U q. rewrite (same_ids_same_matches q docs docs' E). apply U.
Qed.

Lemma ids_unique_insert (o : oid) (doc : dict) (docs : list dict) :
  existsb (matches "_id" (VOid o)) docs = false ->
  ids_unique docs -> ids_unique (docs ++ [("_id", VOid o) :: doc]).
Proof.
  intros N U q. rewrite filter_app, length_app.
  assert (M : matches "_id" q (("_id", VOid o) :: doc)
              = value_eqb (VOid o) q).
  { unfold matches. cbn [dict_get String.eqb Ascii.eqb Bool.eqb].
    apply orb_false_r. }
  cbn [filter]. rewrite M.
  destruct (value_eqb (VOid o) q) eqn:E.
  - apply value_eqb_eq in E. subst q.
    assert (F : filter (matches "_id" (VOid o)) docs = []).
    { clear U. induction docs as [|a docs IH]; simpl in *; auto.
      apply orb_false_iff in N as [-> N]. auto. }
    rewrite F. simpl. lia.
  - specialize (U q). simpl. lia.
Qed.

(** X15.  The identifiers of the stored transactions stay unique under
    every method: no two documents come to answer to one identifier. *)
Lemma ids_stay_unique (e : env) (op : operation) (w : world) :
  ids_unique (transactions w) ->
  ids_unique (transactions (snd (call e op w))).
Proof.
  intros U. destruct op; cbn [call]; rewrite returning_world.
  - now rewrite (proj1 (reads_keep_world e _ w)).
  - destruct (create_transaction_world e user_id name base_file_path
                primary_asset_class secondary_asset_class w)
      as [->|(X & o & rest & ->)]; [exact U|].
    now apply ids_unique_insert.
  - eapply ids_unique_of_map; [|exact U]. apply flag_update_keeps_ids.
  - destruct (nth_error (heap w) update_fields) as [d|] eqn:H.
    + eapply ids_unique_of_map; [|exact U].
      rewrite (update_transaction_steps _ _ _ _ d H). cbv zeta.
      destruct (ObjectId transaction_id) as [id|x]; [|reflexivity].
      destruct (fault e) as [msg|]; [reflexivity|].
      destruct (sent_update e id _) as [[q u']|[]]; try reflexivity.
      destruct (update_first _ _ _) as [[docs n]|] eqn:X; [|reflexivity].
      cbn [snd transactions set_transactions].
      eapply update_first_keeps; [|exact X]. intros a a' _.
      apply apply_update_keeps_id.
    + unfold update_transaction, try_except, pop, deref, bind.
      now rewrite H.
  - unfold delete_transaction, try_except, delete_one, store_call, bind,
      lift, raise, ret, logger_error.
    destruct (ObjectId transaction_id) as [id|x] eqn:I;
      [|rewrite (ObjectId_raises _ _ I); exact U].
    destruct (fault e) as [msg|]; [exact U|].
    destruct (encode_filter e "_id" (VOid id)) as [q'|[]]; try exact U.
    intros q.
    pose proof (delete_first_shrinks (matches "_id" q)
                  (matches "_id" q') (transactions w)) as D.
    destruct (delete_first _ _) as [docs n].
    cbn [snd fst transactions set_transactions] in *.
    specialize (U q). lia.
  - now rewrite (proj2 (reads_keep_world e _ w)).
  - eapply ids_unique_of_map; [|exact U]. apply flag_update_keeps_ids.
  - eapply ids_unique_of_map; [|exact U]. apply flag_update_keeps_ids.
  - eapply ids_unique_of_map; [|exact U]. apply flag_update_keeps_ids.
  - eapply ids_unique_of_map; [|exact U]. apply flag_update_keeps_ids.
  - eapply ids_unique_of_map; [|exact U]. apply flag_update_keeps_ids.
  - eapply ids_unique_of_map; [|exact U]. apply flag_update_keeps_ids.
Qed.

(** * Further properties of the methods *)

(** ** A key that is one path component *)

Lemma has_nul_append (a b : string) :
  has_nul (a ++ b) = has_nul a || has_nul b.
Proof.
  unfold has_nul. induction a as [|c a IH]; cbn [append string_forallb].
  - reflexivity.
  - destruct (negb (Ascii.eqb c zero)); cbn [andb negb orb]; auto.
Qed.

Lemma plain_key_has_no_nul (k : string) :
  plain_key k = true -> has_nul k = false.
Proof.
  unfold plain_key, has_nul. intros H.
  apply andb_true_iff in H as [_ H]. now rewrite H.
Qed.

(** The driver passes a [$set] of encodable fields as it is. *)
Lemma encode_set_update (e : env) (fields : dict) :
  encodable_fields fields = true ->
  encode_update e (Set_ fields) = Return (Set_ fields).
Proof.
  intros H. cbn [encode_update].
  now rewrite (encodable_fields_encode e fields H).
Qed.

(** The [$set] of a string under one key and the time of the call. *)
Lemma encode_string_update (e : env) (key s : string) (t : Z) :
  has_nul key = false ->
  encode_update e (Set_ [(key, VStr s); ("updated_at", VDate t)])
  = Return (Set_ [(key, VStr s); ("updated_at", VDate t)]).
Proof.
  intros K. apply encode_set_update.
  rewrite encodable_fields_cons, K. reflexivity.
Qed.

Lemma split_path_plain_aux (k cur : string) :
  string_forallb (fun c => negb (Ascii.eqb c "."%char)) k = true ->
  split_path k cur = [(cur ++ k)%string].
Proof.
  revert cur. induction k as [|c k IH]; intros cur; simpl.
  - now rewrite string_append_empty_r.
  - intros H. apply andb_true_iff in H as [H1 H2].
    apply negb_true_iff in H1. rewrite H1, (IH _ H2).
    now rewrite string_append_assoc.
Qed.

Lemma plain_key_parts (k : string) :
  plain_key k = true ->
  negb (String.eqb k "") = true
  /\ string_forallb (fun c => negb (Ascii.eqb c "."%char)) k = true.
Proof.
  unfold plain_key. intros H.
  apply andb_true_iff in H as [H _]. apply andb_true_iff in H as [H _].
  now apply andb_true_iff in H.
Qed.

Lemma split_path_plain (k : string) :
  plain_key k = true -> split_path k "" = [k] /\ k <> "".
Proof.
  intros H. apply plain_key_parts in H as [H1 H2].
  split.
  - now rewrite split_path_plain_aux.
  - apply negb_true_iff in H1. now apply String.eqb_neq.
Qed.

Lemma set_field_plain (k : string) (v : value) (d : dict) :
  plain_key k = true -> set_field k v d = Some (dict_set k v d).
Proof.
  intros H. destruct (split_path_plain k H) as [P N].
  unfold set_field. rewrite P. cbn [set_at].
  apply String.eqb_neq in N. now rewrite N.
Qed.

(** The update a single-field setter sends, on one document. *)
Lemma apply_setter_update (field : string) (x y : value) (d : dict) :
  plain_key field = true ->
  field <> "_id" ->
  field <> "updated_at" ->
  apply_update (Set_ [(field, x); ("updated_at", y)]) d
  = Some (dict_set "updated_at" y (dict_set field x d)).
Proof.
  intros P N1 N2. destruct (split_path_plain field P) as [S _].
  unfold apply_update. cbn [map fst]. rewrite S.
  change (split_path "updated_at" "") with ["updated_at"].
  cbn [no_conflicts forallb is_prefix].
  apply String.eqb_neq in N2. rewrite N2, (String.eqb_sym "updated_at"), N2.
  cbn [negb orb andb set_fields].
  rewrite (set_field_plain field x d P).
  rewrite (set_field_plain "updated_at" y _ eq_refl).
  rewrite !dict_get_set_other by congruence.
  replace (opt_value_eqb _ _) with true; auto.
  symmetry. now apply opt_value_eqb_eq.
Qed.

(** ** The single-field setters *)

(** X1.  [set_base_file], [set_preprocessed_file], [change_transaction_name]
    and [update_cutoff_date], on the stored transaction with the identifier
    given and a store that answers: the call returns a flag, logs nothing,
    and leaves the transaction with the field set to the string given, as
    given (no version is looked up, no date format is checked),
    ["updated_at"] at the time of the call and every other field as it was.
    The flag is [False] only when nothing changed: the field already held
    that string and ["updated_at"] already held that time. *)
Theorem setter_writes_its_field (e : env) (op : operation) (w : world)
    (id : oid) (d : dict) (field v : string) :
  setter_write op = Some (field, v) ->
  fault e = None ->
  ObjectId (identifier_of op) = Return id ->
  find (matches "_id" (VOid id)) (transactions w) = Some d ->
  exists (b : bool) (w' : world) (d' : dict),
    call e op w = (Return (Flag b), w')
    /\ logged w' = logged w
    /\ find (matches "_id" (VOid id)) (transactions w') = Some d'
    /\ dict_get field d' = Some (VStr v)
    /\ dict_get "updated_at" d' = Some (VDate (now e))
    /\ (forall k, k <> field -> k <> "updated_at" ->
          dict_get k d' = dict_get k d)
    /\ (b = false <->
        dict_get field d = Some (VStr v)
        /\ dict_get "updated_at" d = Some (VDate (now e))).
Proof.
  intros S F I H.
  set (d' := dict_set "updated_at" (VDate (now e))
               (dict_set field (VStr v) d)).
  assert (K : plain_key field = true /\ field <> "_id"
              /\ field <> "updated_at").
  { destruct op; try discriminate; injection S as <- _;
      repeat split; discriminate. }
  destruct K as (K1 & K2 & K3).
  assert (U : apply_update
                (Set_ [(field, VStr v); ("updated_at", VDate (now e))]) d
              = Some d') by now apply apply_setter_update.
  assert (R : forall (tid : string) (line : string -> string),
             ObjectId tid = Return id ->
             exists w',
               returning Flag
                 (try_except
                    (id <- lift (ObjectId tid) ;;
                     modified_count <-
                       update_one e "_id" (VOid id)
                         (Set_ [(field, VStr v);
                                ("updated_at", VDate (now e))]) ;;
                     ret (0 <? modified_count)%Z)
                    (fun msg => logger_error (line msg) ;;; ret false)) w
               = (Return (Flag (negb (dict_eqb d' d))), w')
               /\ logged w' = logged w
               /\ find (matches "_id" (VOid id)) (transactions w') = Some d').
  { intros tid line I'.
    destruct (root_version_update_run e tid line _ w id d d' F I' H
                (encode_string_update e field v (now e)
                   (plain_key_has_no_nul field K1)) U)
      as (w' & E & H' & L & _).
    exists w'. split; [|split; auto].
    erewrite returning_run; [|exact E]. reflexivity. }
  assert (G : exists w',
             call e op w = (Return (Flag (negb (dict_eqb d' d))), w')
             /\ logged w' = logged w
             /\ find (matches "_id" (VOid id)) (transactions w') = Some d').
  { destruct op; try discriminate; cbn [identifier_of] in I;
      injection S as <- <-; eapply R; exact I. }
  destruct G as (w' & E & L & H').
  exists (negb (dict_eqb d' d)), w', d'.
  split; [exact E|]. split; [exact L|]. split; [exact H'|].
  assert (G1 : dict_get field d' = Some (VStr v)).
  { subst d'. rewrite dict_get_set_other by auto. apply dict_get_set_same. }
  assert (G2 : dict_get "updated_at" d' = Some (VDate (now e)))
    by apply dict_get_set_same.
  split; [exact G1|]. split; [exact G2|]. split; [|split].
  - intros k N1 N2. subst d'. now rewrite !dict_get_set_other by auto.
  - intros B. apply negb_false_iff, dict_eqb_eq in B.
    rewrite <- B. auto.
  - intros [A B]. apply negb_false_iff, dict_eqb_eq. subst d'.
    rewrite (dict_set_same field (VStr v) d A).
    now apply dict_set_same.
Qed.

Lemma setter_writes_its_field_witness :
  exists (w' : world) (d' : dict),
    call quiet_env (UpdateCutoffDate sample_id "31/12/2024") sample_world
    = (Return (Flag true), w')
    /\ find (matches "_id" (VOid (Oid sample_id))) (transactions w') = Some d'
    /\ dict_get "cutoff_date" d' = Some (VStr "31/12/2024")
    /\ dict_get "updated_at" d' = Some (VDate 2000).
Proof.
  destruct (setter_writes_its_field quiet_env
              (UpdateCutoffDate sample_id "31/12/2024") sample_world
              (Oid sample_id) sample_transaction "cutoff_date" "31/12/2024")
    as (b & w' & d' & E & _ & H & G1 & G2 & _ & B); try reflexivity.
  exists w', d'. repeat split; auto.
  destruct b; auto.
  destruct (proj1 B eq_refl) as [X _]. discriminate.
Defined.

(** ** Adding a column datatype *)

Lemma split_path_dot (a s cur : string) :
  string_forallb (fun c => negb (Ascii.eqb c "."%char)) a = true ->
  split_path (a ++ String "."%char s) cur
  = (cur ++ a)%string :: split_path s "".
Proof.
  revert cur. induction a as [|c a IH]; intros cur; simpl.
  - now rewrite string_append_empty_r.
  - intros H. apply andb_true_iff in H as [H1 H2].
    apply negb_true_iff in H1. rewrite H1, (IH _ H2).
    now rewrite string_append_assoc.
Qed.

Lemma column_path (column : string) :
  split_path ("new_added_columns_datatype." ++ column) ""
  = "new_added_columns_datatype" :: split_path column "".
Proof.
  exact (split_path_dot "new_added_columns_datatype" column "" eq_refl).
Qed.

(** What [add_new_column_datatype] does when its update turns the stored
    document [d] into [d']. *)
Lemma add_new_column_datatype_run (e : env) (tid column datatype : string)
    (w : world) (id : oid) (d d' : dict) :
  fault e = None ->
  ObjectId tid = Return id ->
  find (matches "_id" (VOid id)) (transactions w) = Some d ->
  has_nul column = false ->
  apply_update
    (Set_ [(("new_added_columns_datatype." ++ column)%string, VStr datatype);
           ("updated_at", VDate (now e))]) d = Some d' ->
  exists w',
    add_new_column_datatype e tid column datatype w
    = (Return (negb (dict_eqb d' d)), w')
    /\ find (matches "_id" (VOid id)) (transactions w') = Some d'
    /\ logged w' = logged w.
Proof.
  intros F I H K U.
  assert (S : has_nul ("new_added_columns_datatype." ++ column) = false)
    by (rewrite has_nul_append, K; reflexivity).
  destruct (root_version_update_run e tid
              (fun msg =>
                 "Database error while adding new column datatype: " ++ msg)
              %string _ w id d d' F I H
              (encode_string_update e _ datatype (now e) S) U)
    as (w' & E & H' & L & _).
  exists w'. auto.
Qed.

Lemma accept_unless_id_changes (d d' : dict) :
  dict_get "_id" d' = dict_get "_id" d ->
  (if opt_value_eqb (dict_get "_id" d') (dict_get "_id" d)
   then Some d' else None) = Some d'.
Proof.
  intros E. replace (opt_value_eqb _ _) with true; auto.
  symmetry. now apply opt_value_eqb_eq.
Qed.

(** The update [add_new_column_datatype] sends, on a document whose column
    map is [m], for a column path [cs] that the map accepts. *)
Lemma apply_column_update (column : string) (x y : value) (d m : dict)
    (m' : value) :
  dict_get "new_added_columns_datatype" d = Some (VDict m) ->
  set_at (split_path column "") x (Some (VDict m)) = Some m' ->
  apply_update
    (Set_ [(("new_added_columns_datatype." ++ column)%string, x);
           ("updated_at", y)]) d
  = Some (dict_set "updated_at" y
            (dict_set "new_added_columns_datatype" m' d)).
Proof.
  intros M S. unfold apply_update. cbn [map fst].
  rewrite column_path.
  change (split_path "updated_at" "") with ["updated_at"].
  cbn [no_conflicts forallb is_prefix String.eqb Ascii.eqb Bool.eqb
       negb orb andb set_fields].
  unfold set_field at 1. rewrite column_path. cbn [set_at String.eqb].
  rewrite M, S. cbn [option_map].
  rewrite (set_field_plain "updated_at" y _ eq_refl).
  apply accept_unless_id_changes.
  now rewrite !dict_get_set_other by discriminate.
Qed.

(** X2.  [add_new_column_datatype] with a column name that is a plain field
    name (not empty, no dot, no leading dollar sign, no null character), on
    the stored transaction with the identifier given, whose
    ["new_added_columns_datatype"] is the map [m]: the map becomes [m] with
    the column bound to the datatype (a column already there is rebound in
    place, every other column is kept), ["updated_at"] becomes the time of
    the call and no other field changes. *)
Theorem add_new_column_datatype_records_column (e : env)
    (tid column datatype : string) (w : world) (id : oid) (d m : dict) :
  plain_key column = true ->
  fault e = None ->
  ObjectId tid = Return id ->
  find (matches "_id" (VOid id)) (transactions w) = Some d ->
  dict_get "new_added_columns_datatype" d = Some (VDict m) ->
  exists (b : bool) (w' : world) (d' : dict),
    add_new_column_datatype e tid column datatype w = (Return b, w')
    /\ find (matches "_id" (VOid id)) (transactions w') = Some d'
    /\ dict_get "new_added_columns_datatype" d'
       = Some (VDict (dict_set column (VStr datatype) m))
    /\ dict_get "updated_at" d' = Some (VDate (now e))
    /\ (forall k, k <> "new_added_columns_datatype" -> k <> "updated_at" ->
          dict_get k d' = dict_get k d).
Proof.
  intros P F I H M. destruct (split_path_plain column P) as [S N].
  assert (A : set_at (split_path column "") (VStr datatype) (Some (VDict m))
              = Some (VDict (dict_set column (VStr datatype) m))).
  { rewrite S. cbn [set_at]. apply String.eqb_neq in N. now rewrite N. }
  pose proof (apply_column_update column (VStr datatype) (VDate (now e))
                d m _ M A) as U.
  destruct (add_new_column_datatype_run e tid column datatype w id d _
              F I H (plain_key_has_no_nul column P) U) as (w' & E & H' & _).
  do 3 eexists. split; [exact E|]. split; [exact H'|]. split; [|split].
  - rewrite dict_get_set_other by discriminate. apply dict_get_set_same.
  - apply dict_get_set_same.
  - intros k K1 K2. now rewrite !dict_get_set_other by auto.
Qed.

Lemma add_new_column_datatype_records_column_witness :
  exists (b : bool) (w' : world) (d' : dict),
    add_new_column_datatype quiet_env other_id "rate" "float" fresh_world
    = (Return b, w')
    /\ find (matches "_id" (VOid (Oid other_id))) (transactions w') = Some d'
    /\ dict_get "new_added_columns_datatype" d'
       = Some (VDict [("rate", VStr "float")]).
Proof.
  destruct (add_new_column_datatype_records_column quiet_env other_id
              "rate" "float" fresh_world (Oid other_id)
              (hd [] (transactions fresh_world)) [])
    as (b & w' & d' & E & H & M & _); try reflexivity.
  exists b, w', d'. auto.
Defined.

(** X3.  A column name with a dot is not kept as one key.  For the name
    [a.b] (both parts plain field names) on a transaction whose column
    map [m] has no column [a], [add_new_column_datatype] stores under [a] a
    nested map binding [b] to the datatype. *)
Theorem add_new_column_datatype_dotted_name_nests (e : env)
    (tid a b datatype : string) (w : world) (id : oid) (d m : dict) :
  plain_key a = true ->
  plain_key b = true ->
  fault e = None ->
  ObjectId tid = Return id ->
  find (matches "_id" (VOid id)) (transactions w) = Some d ->
  dict_get "new_added_columns_datatype" d = Some (VDict m) ->
  dict_get a m = None ->
  exists (w' : world) (d' : dict),
    add_new_column_datatype e tid (a ++ "." ++ b) datatype w
    = (Return true, w')
    /\ find (matches "_id" (VOid id)) (transactions w') = Some d'
    /\ dict_get "new_added_columns_datatype" d'
       = Some (VDict (dict_set a (VDict [(b, VStr datatype)]) m)).
Proof.
  intros Pa Pb F I H M Na.
  destruct (split_path_plain b Pb) as [Sb Nb].
  destruct (plain_key_parts a Pa) as [Na' Da].
  assert (S : split_path (a ++ "." ++ b) "" = [a; b]).
  { change (a ++ "." ++ b)%string with (a ++ String "."%char b)%string.
    now rewrite (split_path_dot a b "" Da), Sb. }
  assert (A : set_at (split_path (a ++ "." ++ b) "") (VStr datatype)
                (Some (VDict m))
              = Some (VDict (dict_set a (VDict [(b, VStr datatype)]) m))).
  { rewrite S. cbn [set_at]. apply negb_true_iff in Na'. rewrite Na', Na.
    cbn [set_at]. apply String.eqb_neq in Nb. now rewrite Nb. }
  pose proof (apply_column_update (a ++ "." ++ b) (VStr datatype)
                (VDate (now e)) d m _ M A) as U.
  assert (K : has_nul (a ++ "." ++ b) = false).
  { rewrite !has_nul_append, (plain_key_has_no_nul a Pa),
      (plain_key_has_no_nul b Pb). reflexivity. }
  destruct (add_new_column_datatype_run e tid _ datatype w id d _
              F I H K U) as (w' & E & H' & _).
  assert (G : dict_get "new_added_columns_datatype"
                (dict_set "updated_at" (VDate (now e))
                   (dict_set "new_added_columns_datatype"
                      (VDict (dict_set a (VDict [(b, VStr datatype)]) m)) d))
              = Some (VDict (dict_set a (VDict [(b, VStr datatype)]) m))).
  { rewrite dict_get_set_other by discriminate. apply dict_get_set_same. }
  do 2 eexists. split; [|split; [exact H'|exact G]].
  rewrite E. f_equal. f_equal. apply negb_true_iff.
  apply dict_eqb_differs with (k := "new_added_columns_datatype").
  rewrite G, M. intros X. injection X as X.
  apply (f_equal (dict_get a)) in X.
  rewrite dict_get_set_same, Na in X. discriminate.
Qed.

Lemma add_new_column_datatype_dotted_name_nests_witness :
  exists (w' : world) (d' : dict),
    add_new_column_datatype quiet_env other_id "loan.rate" "float" fresh_world
    = (Return true, w')
    /\ find (matches "_id" (VOid (Oid other_id))) (transactions w') = Some d'
    /\ dict_get "new_added_columns_datatype" d'
       = Some (VDict [("loan", VDict [("rate", VStr "float")])]).
Proof.
  apply (add_new_column_datatype_dotted_name_nests quiet_env other_id
           "loan" "rate" "float" fresh_world (Oid other_id)
           (hd [] (transactions fresh_world)) []); reflexivity.
Defined.

(** X4.  With the empty column name the update path ends in a dot and the
    store refuses it: on a stored transaction, [add_new_column_datatype]
    returns [False], logs the write error and changes nothing, not even
    ["updated_at"]. *)
Theorem add_new_column_datatype_empty_name_refused (e : env)
    (tid datatype : string) (w : world) (id : oid) (d : dict) :
  fault e = None ->
  ObjectId tid = Return id ->
  find (matches "_id" (VOid id)) (transactions w) = Some d ->
  add_new_column_datatype e tid "" datatype w
  = (Return false,
     log_line
       ("Database error while adding new column datatype: " ++ write_error)
       w).
Proof.
  intros F I H.
  unfold add_new_column_datatype. rewrite flag_update_steps, I, F.
  rewrite sent_update_twelve by reflexivity.
  assert (U : forall docs,
             find (matches "_id" (VOid id)) docs = Some d ->
             update_first (matches "_id" (VOid id))
               (apply_update
                  (Set_ [(("new_added_columns_datatype." ++ "")%string,
                          VStr datatype);
                         ("updated_at", VDate (now e))])) docs = None).
  { induction docs as [|a docs IH]; cbn [find update_first];
      [discriminate|].
    destruct (matches "_id" (VOid id) a) eqn:A.
    - intros _. reflexivity.
    - intros X. now rewrite (IH X). }
  now rewrite (U _ H).
Qed.

Lemma add_new_column_datatype_empty_name_refused_witness :
  add_new_column_datatype quiet_env sample_id "" "float" sample_world
  = (Return false,
     mkWorld [sample_transaction]
       ["Database error while adding new column datatype: WriteError"]
       [sample_patch]).
Proof.
  apply (add_new_column_datatype_empty_name_refused quiet_env sample_id
           "float" sample_world (Oid sample_id) sample_transaction);
    reflexivity.
Defined.

(** ** Identifiers that find nothing, identifiers that do not parse *)

Lemma update_first_absent (m : dict -> bool) (f : dict -> option dict)
    (docs : list dict) :
  existsb m docs = false -> update_first m f docs = Some (docs, 0%Z).
Proof.
  induction docs as [|a docs IH]; simpl; auto.
  destruct (m a); simpl; [discriminate|]. intros H. now rewrite IH.
Qed.

(** X5.  Every method that takes a transaction identifier, given one of 24
    hexadecimal digits that no stored transaction has, on a store that
    answers, and sending with it what the driver can encode (a field map
    whose integers fit 64 bits and whose keys have no null character, a
    column name with no null character): it returns its negative result
    ([None] from [get_transaction], [False] from the others) and the
    collection is as it was.  The negative result is the one a failing
    store gives. *)
Theorem unknown_identifier_gives_sentinel (e : env) (op : operation)
    (w : world) (id : oid) :
  by_transaction_id op = true ->
  field_map_ok op w = true ->
  sends_encodable op w = true ->
  fault e = None ->
  ObjectId (identifier_of op) = Return id ->
  existsb (matches "_id" (VOid id)) (transactions w) = false ->
  fst (call e op w) = Return (sentinel op)
  /\ transactions (snd (call e op w)) = transactions w.
Proof.
  intros B M C F I N.
  pose proof (update_first_absent (matches "_id" (VOid id))) as U.
  destruct op; try discriminate; cbn [identifier_of] in I;
    cbn [call sentinel].
  4: { unfold delete_transaction, returning, try_except, delete_one,
         store_call, bind, lift, ret.
       rewrite I, F, encode_id_filter, (delete_first_absent _ _ N).
       split; reflexivity. }
  3: { cbn [field_map_ok sends_encodable] in M, C.
       destruct (nth_error (heap w) update_fields) as [d|] eqn:H;
         [|discriminate].
       unfold returning, bind, ret.
       rewrite (update_transaction_steps _ _ _ _ d H). cbv zeta.
       rewrite I, F.
       rewrite sent_update_twelve
         by (apply encode_set_update, stripped_is_encodable, C).
       rewrite (U _ _ N). split; reflexivity. }
  2: { cbn [sends_encodable] in C. apply negb_true_iff in C.
       assert (S : has_nul ("new_added_columns_datatype." ++ column_name)
                   = false)
         by (rewrite has_nul_append, C; reflexivity).
       erewrite returning_run; cycle 1;
         [unfold add_new_column_datatype;
          rewrite flag_update_steps, I, F;
          rewrite sent_update_twelve
            by (apply encode_string_update, S);
          rewrite (U _ _ N); reflexivity
         |split; reflexivity]. }
  1: { unfold get_transaction, returning, try_except, find_one, store_call,
         bind, lift, ret.
       rewrite I, F, encode_id_filter, (find_none_of_existsb _ _ N).
       split; reflexivity. }
  all: erewrite returning_run; cycle 1;
    [unfold set_base_file, set_preprocessed_file,
       change_transaction_name, update_cutoff_date,
       add_rule_application_root_version,
       remove_rule_application_root_version;
     cbv zeta; rewrite flag_update_steps, I, F;
     rewrite sent_update_twelve by reflexivity;
     rewrite (U _ _ N); reflexivity
    |split; reflexivity].
Qed.

Lemma unknown_identifier_gives_sentinel_witness :
  fst (call quiet_env (ChangeTransactionName other_id "bonds") sample_world)
  = Return (Flag false)
  /\ transactions
       (snd (call quiet_env (ChangeTransactionName other_id "bonds")
               sample_world))
     = [sample_transaction].
Proof.
  apply (unknown_identifier_gives_sentinel quiet_env
           (ChangeTransactionName other_id "bonds") sample_world
           (Oid other_id)); reflexivity.
Defined.

(** X6.  No method catches a malformed identifier.  Whatever the method,
    when [ObjectId] refuses its identifier argument (the transaction's, or
    the owner's for [create_transaction] and [get_transactions_by_user]),
    which it does unless the argument is a string of 24 characters that
    [bytes.fromhex] reads (pairs of hexadecimal digits, white space around
    the pairs), [InvalidId] leaves the method: nothing is returned, nothing
    is logged and the store is not asked. *)
Theorem malformed_identifier_raises (e : env) (op : operation) (w : world) :
  parses (identifier_of op) = false ->
  field_map_ok op w = true ->
  fst (call e op w) = Raise (InvalidId (identifier_of op))
  /\ logged (snd (call e op w)) = logged w
  /\ transactions (snd (call e op w)) = transactions w.
Proof.
  intros P M. unfold parses in P.
  destruct (ObjectId (identifier_of op)) as [id|x] eqn:I; [discriminate|].
  pose proof (ObjectId_raises _ _ I) as ->.
  destruct op; cbn [identifier_of] in I; cbn [call identifier_of].
  4: { cbn [field_map_ok] in M.
       destruct (nth_error (heap w) update_fields) as [d|] eqn:H;
         [|discriminate].
       unfold returning, bind, ret.
       rewrite (update_transaction_steps _ _ _ _ d H). cbv zeta.
       rewrite I. repeat split. }
  all: unfold get_transaction, create_transaction, delete_transaction,
         get_transactions_by_user, add_new_column_datatype, set_base_file,
         set_preprocessed_file, change_transaction_name, update_cutoff_date,
         add_rule_application_root_version,
         remove_rule_application_root_version, returning, try_except, bind,
         lift, ret;
    cbv zeta; rewrite I; repeat split.
Qed.

Lemma malformed_identifier_raises_witness :
  fst (call quiet_env (DeleteTransaction "42") sample_world)
  = Raise (InvalidId "42")
  /\ logged (snd (call quiet_env (DeleteTransaction "42") sample_world)) = []
  /\ transactions (snd (call quiet_env (DeleteTransaction "42") sample_world))
     = [sample_transaction].
Proof.
  apply (malformed_identifier_raises quiet_env (DeleteTransaction "42")
           sample_world); reflexivity.
Defined.

(** ** Reading one transaction *)

Lemma lower_hex_canonical (c : ascii) :
  is_hex_digit c = true ->
  is_space (lower_hex c) = false
  /\ is_hex_digit (lower_hex c) = true
  /\ lower_hex (lower_hex c) = lower_hex c.
Proof.
  destruct c as [[] [] [] [] [] [] [] []]; vm_compute; intros H;
    try discriminate; repeat split; reflexivity.
Qed.

(** What [bytes.fromhex] gives, read again, is itself. *)
Lemma fromhex_canonical (s h : string) :
  fromhex s = Some h -> fromhex h = Some h.
Proof.
  assert (G : forall (n : nat) (s h : string),
             (String.length s <= n)%nat ->
             fromhex s = Some h -> fromhex h = Some h).
  { clear s h. induction n as [|n IH]; intros s h L.
    - destruct s; [|simpl in L; lia].
      intros E. injection E as <-. reflexivity.
    - destruct s as [|c s].
      + intros E. injection E as <-. reflexivity.
      + cbn [String.length] in L. cbn [fromhex].
        destruct (is_space c); [apply IH; lia|].
        destruct (is_hex_digit c) eqn:C; [|discriminate].
        destruct s as [|c' s]; [discriminate|].
        cbn [String.length] in L.
        destruct (is_hex_digit c') eqn:C'; [|discriminate].
        destruct (fromhex s) as [r|] eqn:R; [|discriminate].
        cbn [option_map]. intros E. injection E as <-.
        destruct (lower_hex_canonical c C) as (A1 & A2 & A3).
        destruct (lower_hex_canonical c' C') as (_ & B2 & B3).
        cbn [fromhex]. rewrite A1, A2, B2, A3, B3.
        rewrite (IH s r) by (auto; lia). reflexivity. }
  apply (G (String.length s)). lia.
Qed.

(** An identifier the layer hands out parses back to itself. *)
Lemma ObjectId_canonical (s : string) (o : oid) :
  ObjectId s = Return o -> ObjectId (oid_hex o) = Return o.
Proof.
  unfold ObjectId.
  destruct (String.length s =? 24)%nat; [|discriminate].
  destruct (fromhex s) as [h|] eqn:H; [|discriminate].
  destruct (String.length h =? 24)%nat eqn:L; [|discriminate].
  intros E. injection E as <-. cbn [oid_hex].
  now rewrite L, (fromhex_canonical s h H), L.
Qed.

(** X7.  [get_transaction] on the identifier of a stored transaction (its
    ["_id"] and ["user_id"] being identifiers) returns that document with
    the two identifiers replaced by their 24 lower-case hexadecimal digits
    and every other field, and the order of the fields, as stored; the store
    is left as it was.  The ["_id"] string returned is itself an identifier
    of the same transaction: asking again with it gives the same record. *)
Theorem get_transaction_returns_stored_record (e : env) (tid : string)
    (w : world) (id u : oid) (d : dict) :
  fault e = None ->
  ObjectId tid = Return id ->
  find (matches "_id" (VOid id)) (transactions w) = Some d ->
  dict_get "_id" d = Some (VOid id) ->
  dict_get "user_id" d = Some (VOid u) ->
  exists r : dict,
    get_transaction e tid w = (Return (Some r), w)
    /\ dict_get "_id" r = Some (VStr (oid_hex id))
    /\ dict_get "user_id" r = Some (VStr (oid_hex u))
    /\ (forall k, k <> "_id" -> k <> "user_id" ->
          dict_get k r = dict_get k d)
    /\ map fst r = map fst d
    /\ get_transaction e (oid_hex id) w = (Return (Some r), w).
Proof.
  intros F I H D U.
  assert (G : forall s, ObjectId s = Return id ->
                get_transaction e s w
                = (Return
                     (Some (dict_set "user_id" (VStr (oid_hex u))
                              (dict_set "_id" (VStr (oid_hex id)) d))), w)).
  { intros s I'.
    unfold get_transaction, try_except, find_one, store_call, bind, lift, ret,
      getitem.
    rewrite I', F, encode_id_filter. cbn iota. rewrite H.
    assert (T : truthy (VDict d) = true)
      by (destruct d; [discriminate | reflexivity]).
    rewrite T, D. cbn [py_str].
    rewrite dict_get_set_other by discriminate. rewrite U. reflexivity. }
  eexists. split; [exact (G tid I)|].
  split; [|split; [|split; [|split]]].
  - rewrite dict_get_set_other by discriminate. apply dict_get_set_same.
  - apply dict_get_set_same.
  - intros k K1 K2. now rewrite !dict_get_set_other by auto.
  - assert (K : forall k v (x : dict), map fst (dict_set k v x) = map fst x
                                      \/ dict_get k x = None).
    { intros k v x. induction x as [|[j y] x IH]; simpl; auto.
      destruct (String.eqb k j); simpl; auto.
      destruct IH as [-> | ->]; auto. }
    destruct (K "user_id" (VStr (oid_hex u))
                (dict_set "_id" (VStr (oid_hex id)) d)) as [-> | X].
    + destruct (K "_id" (VStr (oid_hex id)) d) as [-> | X]; congruence.
    + rewrite dict_get_set_other in X by discriminate. congruence.
  - apply G. eapply ObjectId_canonical, I.
Qed.

Lemma get_transaction_returns_stored_record_witness :
  exists r : dict,
    get_transaction quiet_env "65F0A1B2C3D4E5F601234567" sample_world
    = (Return (Some r), sample_world)
    /\ dict_get "_id" r = Some (VStr sample_id)
    /\ get_transaction quiet_env sample_id sample_world
       = (Return (Some r), sample_world).
Proof.
  destruct (get_transaction_returns_stored_record quiet_env
              "65F0A1B2C3D4E5F601234567" sample_world (Oid sample_id)
              (Oid sample_owner) sample_transaction)
    as (r & G & A & _ & _ & _ & G'); try reflexivity.
  exists r. auto.
Defined.

(** ** What the generic update writes *)

Lemma dict_get_absent (k : string) (d : dict) :
  ~ In k (map fst d) -> dict_get k d = None.
Proof.
  induction d as [|[j v] d IH]; simpl; auto.
  intros N. destruct (String.eqb_spec k j) as [->|]; [tauto|].
  apply IH. tauto.
Qed.

Lemma dict_get_present (k : string) (d : dict) :
  dict_get k d = None -> ~ In k (map fst d).
Proof.
  induction d as [|[j v] d IH]; simpl; [tauto|].
  destruct (String.eqb_spec k j) as [->|N]; [discriminate|].
  intros H [E|I]; [congruence | now apply IH].
Qed.

Lemma keys_of_dict_pop (k : string) (d : dict) :
  NoDup (map fst d) -> NoDup (map fst (dict_pop k d)).
Proof.
  unfold dict_pop. induction d as [|[j v] d IH]; simpl; auto.
  intros N. inversion N as [|? ? N1 N2]; subst.
  destruct (negb (String.eqb k j)); simpl; auto.
  constructor; auto. intros I. apply N1.
  apply in_map_iff in I as (x & E & I). apply filter_In in I as [I _].
  apply in_map_iff. eauto.
Qed.

Lemma key_of_dict_set (j k : string) (v : value) (d : dict) :
  In j (map fst (dict_set k v d)) -> j = k \/ In j (map fst d).
Proof.
  induction d as [|[i x] d IH]; simpl.
  - intros [E|[]]. auto.
  - destruct (String.eqb k i); simpl; [tauto|].
    intros [E|I]; [tauto|]. destruct (IH I); auto.
Qed.

Lemma keys_of_dict_set (k : string) (v : value) (d : dict) :
  NoDup (map fst d) -> NoDup (map fst (dict_set k v d)).
Proof.
  induction d as [|[j x] d IH]; simpl.
  - intros _. constructor; [tauto | constructor].
  - intros N. inversion N as [|? ? N1 N2]; subst.
    destruct (String.eqb_spec k j) as [->|K]; simpl.
    + constructor; auto.
    + constructor; auto. intros I.
      destruct (key_of_dict_set _ _ _ _ I); [congruence | tauto].
Qed.

Lemma plain_key_apart (k : string) (fields : dict) :
  forallb (fun kv => plain_key (fst kv)) fields = true ->
  ~ In k (map fst fields) ->
  forallb (fun q => negb (is_prefix [k] q || is_prefix q [k]))
    (map (fun kv => split_path (fst kv) "") fields) = true.
Proof.
  induction fields as [|[j x] fields IH]; cbn [map fst forallb In]; auto.
  intros P N. apply andb_true_iff in P as [P1 P2].
  destruct (split_path_plain j P1) as [-> _].
  rewrite (IH P2) by tauto. cbn [is_prefix].
  assert (K : k <> j) by (intros ->; apply N; now left).
  apply String.eqb_neq in K. rewrite (String.eqb_sym j k), K. reflexivity.
Qed.

Lemma plain_keys_do_not_conflict (fields : dict) :
  forallb (fun kv => plain_key (fst kv)) fields = true ->
  NoDup (map fst fields) ->
  no_conflicts (map (fun kv => split_path (fst kv) "") fields) = true.
Proof.
  induction fields as [|[k v] fields IH]; cbn [map fst forallb no_conflicts];
    auto.
  intros P N. apply andb_true_iff in P as [P1 P2].
  inversion N as [|? ? N1 N2]; subst.
  rewrite (IH P2 N2), andb_true_r.
  destruct (split_path_plain k P1) as [-> _].
  now apply plain_key_apart.
Qed.

(** An accepted update of plain, distinct keys writes each key of the map
    and nothing else. *)
Lemma set_fields_plain (fields : dict) (d : dict) :
  forallb (fun kv => plain_key (fst kv)) fields = true ->
  NoDup (map fst fields) ->
  exists d',
    set_fields fields d = Some d'
    /\ forall k,
         dict_get k d'
         = match dict_get k fields with
           | Some v => Some v
           | None => dict_get k d
           end.
Proof.
  revert d. induction fields as [|[key x] fields IH]; intros d P N.
  - exists d. split; auto.
  - simpl in P. apply andb_true_iff in P as [P1 P2].
    inversion N as [|? ? N1 N2]; subst.
    destruct (IH (dict_set key x d) P2 N2) as (d' & S & G).
    exists d'. cbn [set_fields]. rewrite (set_field_plain key x d P1).
    split; [exact S|].
    intros k. rewrite G. cbn [dict_get].
    destruct (String.eqb_spec k key) as [->|K].
    + rewrite (dict_get_absent key fields N1). apply dict_get_set_same.
    + destruct (dict_get k fields); auto. now apply dict_get_set_other.
Qed.

(** A map of plain keys and encodable values is one the driver encodes. *)
Lemma plain_fields_encodable (m : dict) :
  forallb (fun kv => plain_key (fst kv)) m = true ->
  forallb (fun kv => encodable (snd kv)) m = true ->
  encodable_fields m = true.
Proof.
  induction m as [|[k x] m IH]; cbn [forallb fst snd]; auto.
  intros P V. apply andb_true_iff in P as [P1 P2].
  apply andb_true_iff in V as [V1 V2].
  now rewrite encodable_fields_cons, (plain_key_has_no_nul k P1), V1, IH.
Qed.

(** X8.  [update_transaction] with a field map of plain keys (not empty, no
    dot, no leading dollar sign, no null character) and of values the
    driver can encode (integers within 64 bits, keys of nested maps with
    no null character), on the stored transaction with the identifier
    given and a store that answers: every entry of the map other than
    ["_id"], ["user_id"] and ["updated_at"] is written to the transaction,
    ["updated_at"] is the time of the call even when the map carried
    another, and every field the map does not name, with ["_id"] and
    ["user_id"], is as it was. *)
Theorem update_transaction_writes_the_map (e : env) (tid : string) (r : nat)
    (w : world) (id : oid) (d m : dict) :
  nth_error (heap w) r = Some m ->
  forallb (fun kv => plain_key (fst kv)) m = true ->
  forallb (fun kv => encodable (snd kv)) m = true ->
  NoDup (map fst m) ->
  fault e = None ->
  ObjectId tid = Return id ->
  find (matches "_id" (VOid id)) (transactions w) = Some d ->
  exists (b : bool) (w' : world) (d' : dict),
    update_transaction e tid r w = (Return b, w')
    /\ logged w' = logged w
    /\ find (matches "_id" (VOid id)) (transactions w') = Some d'
    /\ dict_get "updated_at" d' = Some (VDate (now e))
    /\ dict_get "_id" d' = dict_get "_id" d
    /\ dict_get "user_id" d' = dict_get "user_id" d
    /\ (forall k v, k <> "_id" -> k <> "user_id" -> k <> "updated_at" ->
          dict_get k m = Some v -> dict_get k d' = Some v)
    /\ (forall k, k <> "updated_at" -> dict_get k m = None ->
          dict_get k d' = dict_get k d).
Proof.
  intros H P V N F I D.
  set (fields := stripped_and_stamped e m).
  assert (C : encode_update e (Set_ fields) = Return (Set_ fields)).
  { apply encode_set_update, stripped_is_encodable.
    now apply encodable_dict_pop, encodable_dict_pop,
      plain_fields_encodable. }
  assert (P' : forallb (fun kv => plain_key (fst kv)) fields = true).
  { subst fields. unfold stripped_and_stamped, add_timestamps.
    apply forallb_dict_set; [reflexivity|].
    now apply forallb_dict_pop, forallb_dict_pop. }
  assert (N' : NoDup (map fst fields)).
  { subst fields. unfold stripped_and_stamped, add_timestamps.
    now apply keys_of_dict_set, keys_of_dict_pop, keys_of_dict_pop. }
  destruct (set_fields_plain fields d P' N') as (d' & S & G).
  assert (Gid : dict_get "_id" d' = dict_get "_id" d).
  { rewrite G. subst fields. now rewrite stripped_has_no_id_key. }
  assert (U : apply_update (Set_ fields) d = Some d').
  { unfold apply_update.
    rewrite (plain_keys_do_not_conflict fields P' N'), S.
    now apply accept_unless_id_changes. }
  assert (M : matches "_id" (VOid id) d' = true).
  { rewrite (matches_same_id _ d d' Gid). apply find_some in D. tauto. }
  destruct (update_first_find _ _ _ d d' D U M) as (docs & X & D').
  rewrite (update_transaction_steps e tid r w m H). cbv zeta.
  rewrite I, F. fold fields.
  rewrite (sent_update_twelve e id _ C), X.
  do 3 eexists. split; [reflexivity|].
  cbn [logged transactions set_transactions set_heap].
  split; [reflexivity|]. split; [exact D'|].
  split; [|split; [exact Gid|split; [|split]]].
  - rewrite G. subst fields. unfold stripped_and_stamped, add_timestamps.
    now rewrite dict_get_set_same.
  - rewrite G. subst fields. now rewrite stripped_has_no_owner_key.
  - intros k v K1 K2 K3 E. rewrite G. subst fields.
    unfold stripped_and_stamped, add_timestamps.
    rewrite dict_get_set_other, !dict_get_pop_other by auto.
    now rewrite E.
  - intros k K E. rewrite G. subst fields.
    unfold stripped_and_stamped, add_timestamps.
    rewrite dict_get_set_other by auto.
    assert (Z : dict_get k (dict_pop "user_id" (dict_pop "_id" m)) = None).
    { apply dict_get_absent. intros J.
      apply (dict_get_present k m E).
      apply in_map_iff in J as (x & <- & J).
      unfold dict_pop in J. apply filter_In in J as [J _].
      apply filter_In in J as [J _]. apply in_map_iff. eauto. }
    now rewrite Z.
Qed.

Lemma update_transaction_writes_the_map_witness :
  exists (b : bool) (w' : world) (d' : dict),
    update_transaction quiet_env sample_id 0 sample_world = (Return b, w')
    /\ find (matches "_id" (VOid (Oid sample_id))) (transactions w') = Some d'
    /\ dict_get "name" d' = Some (VStr "bonds")
    /\ dict_get "user_id" d' = Some (VOid (Oid sample_owner))
    /\ dict_get "base_file" d' = Some (VStr "v9").
Proof.
  destruct (update_transaction_writes_the_map quiet_env sample_id 0
              sample_world (Oid sample_id) sample_transaction sample_patch)
    as (b & w' & d' & E & _ & D' & _ & _ & O & A & B);
    try reflexivity.
  { repeat constructor; simpl; intuition discriminate. }
  exists b, w', d'.
  split; [exact E|]. split; [exact D'|]. split; [|split].
  - apply A; [discriminate..|reflexivity].
  - rewrite O. reflexivity.
  - rewrite (B "base_file"); [reflexivity|discriminate|reflexivity].
Defined.

Lemma set_field_below_owner_refused (x : string) (v : value) (d : dict)
    (o : oid) :
  dict_get "user_id" d = Some (VOid o) ->
  set_field ("user_id." ++ x) v d = None.
Proof.
  intros O. unfold set_field.
  change ("user_id." ++ x)%string with ("user_id" ++ String "."%char x)%string.
  rewrite (split_path_dot "user_id" x "" eq_refl).
  cbn [append set_at String.eqb Ascii.eqb Bool.eqb]. rewrite O.
  destruct (split_path x "") as [|k rest] eqn:P;
    [now apply split_path_not_nil in P|].
  cbn [set_at]. destruct (String.eqb k ""); reflexivity.
Qed.

Lemma set_fields_below_owner_refused (fields : dict) (x : string)
    (v : value) (d : dict) (o : oid) :
  In (("user_id." ++ x)%string, v) fields ->
  dict_get "user_id" fields = None ->
  dict_get "user_id" d = Some (VOid o) ->
  set_fields fields d = None.
Proof.
  revert d. induction fields as [|[key y] fields IH]; intros d I N O;
    [destruct I|].
  cbn [dict_get] in N.
  destruct (String.eqb_spec "user_id" key) as [|K]; [discriminate|].
  cbn [set_fields].
  destruct I as [E|I].
  - injection E as E1 E2. subst key y.
    pose proof (set_field_below_owner_refused x v d o O) as R.
    cbn [append] in R. now rewrite R.
  - destruct (set_field key y d) as [d1|] eqn:S; [|reflexivity].
    apply (IH d1 I N).
    eapply set_field_keeps_owner; eauto.
Qed.

(** X9.  Only the exact keys ["_id"] and ["user_id"] are stripped.  A field
    map with a key below the owner, [user_id.x], keeps that key; when the
    driver can encode the map (integers within 64 bits, keys with no null
    character), the store refuses the update, since the stored owner is an
    identifier and has no fields: [update_transaction] returns [False],
    logs the write error, and no entry of the map is written. *)
Theorem update_below_owner_is_refused (e : env) (tid : string) (r : nat)
    (w : world) (id o : oid) (d m : dict) (x : string) (v : value) :
  nth_error (heap w) r = Some m ->
  In (("user_id." ++ x)%string, v) m ->
  encodable_fields m = true ->
  fault e = None ->
  ObjectId tid = Return id ->
  find (matches "_id" (VOid id)) (transactions w) = Some d ->
  dict_get "user_id" d = Some (VOid o) ->
  fst (update_transaction e tid r w) = Return false
  /\ transactions (snd (update_transaction e tid r w)) = transactions w
  /\ logged (snd (update_transaction e tid r w))
     = logged w
       ++ [("Database error while updating transaction: " ++ write_error)
           %string].
Proof.
  intros H I C F P D O.
  rewrite (update_transaction_steps e tid r w m H). cbv zeta.
  rewrite P, F.
  rewrite sent_update_twelve
    by (apply encode_set_update, stripped_is_encodable;
        now apply encodable_dict_pop, encodable_dict_pop).
  assert (A : apply_update (Set_ (stripped_and_stamped e m)) d = None).
  { unfold apply_update. destruct (no_conflicts _); [|reflexivity].
    rewrite (set_fields_below_owner_refused _ x v d o); auto.
    - unfold stripped_and_stamped, add_timestamps.
      assert (J : In (("user_id." ++ x)%string, v)
                    (dict_pop "user_id" (dict_pop "_id" m))).
      { unfold dict_pop. apply filter_In. split; [|reflexivity].
        apply filter_In. split; [exact I | reflexivity]. }
      revert J. generalize (dict_pop "user_id" (dict_pop "_id" m)).
      intros l. induction l as [|[j y] l IH]; [intros []|].
      cbn [dict_set]. intros [E|J].
      + injection E as E1 E2. subst j y.
        cbn [append String.eqb Ascii.eqb Bool.eqb]. now left.
      + destruct (String.eqb "updated_at" j); right; auto.
    - apply stripped_has_no_owner_key. }
  assert (U : forall docs,
             find (matches "_id" (VOid id)) docs = Some d ->
             update_first (matches "_id" (VOid id))
               (apply_update (Set_ (stripped_and_stamped e m))) docs = None).
  { induction docs as [|a docs IH]; cbn [find update_first];
      [discriminate|].
    destruct (matches "_id" (VOid id) a).
    - intros E. injection E as ->. now rewrite A.
    - intros X. now rewrite (IH X). }
  rewrite (U _ D). repeat split.
Qed.

Lemma update_below_owner_is_refused_witness :
  fst (update_transaction quiet_env sample_id 0 owner_patch_world)
  = Return false
  /\ transactions (snd (update_transaction quiet_env sample_id 0
                          owner_patch_world))
     = [sample_transaction]
  /\ logged (snd (update_transaction quiet_env sample_id 0
                    owner_patch_world))
     = ["Database error while updating transaction: WriteError"].
Proof.
  apply (update_below_owner_is_refused quiet_env sample_id 0
           owner_patch_world (Oid sample_id) (Oid sample_owner)
           sample_transaction owner_patch "role" (VStr "admin"));
    try reflexivity.
  right. now left.
Defined.

(** ** Adding a root version, then removing it *)

Lemma filter_drops_appended (v : string) (ids : list string) :
  filter (fun x => negb (String.eqb x v)) (ids ++ [v])
  = filter (fun x => negb (String.eqb x v)) ids.
Proof.
  rewrite filter_app. simpl. rewrite String.eqb_refl. simpl.
  apply app_nil_r.
Qed.

(** X10.  [add_rule_application_root_version] with [v] followed by
    [remove_rule_application_root_version] with the same [v], on a stored
    transaction whose root-version list holds the identifiers [ids] (or
    that has no list yet, [ids] empty): both calls return [True], and the
    list left is [ids] without any [v].  The pair restores the list only
    when [v] was not in it before: occurrences older than the add are
    removed with it. *)
Theorem add_then_remove_root_version (e e' : env) (tid v : string)
    (w : world) (id : oid) (d : dict) (ids : list string) :
  fault e = None ->
  fault e' = None ->
  ObjectId tid = Return id ->
  find (matches "_id" (VOid id)) (transactions w) = Some d ->
  root_versions d = Some (map VStr ids) ->
  exists (w1 w2 : world) (d2 : dict),
    add_rule_application_root_version e tid v w = (Return true, w1)
    /\ remove_rule_application_root_version e' tid v w1 = (Return true, w2)
    /\ find (matches "_id" (VOid id)) (transactions w2) = Some d2
    /\ dict_get "rule_application_root_versions" d2
       = Some (VList (map VStr (filter (fun x => negb (String.eqb x v)) ids)))
    /\ (forall k, k <> "rule_application_root_versions" ->
          dict_get k d2 = dict_get k d).
Proof.
  intros F F' I H R.
  destruct (push_root_version v d _ R) as (U1 & R1 & N1).
  set (d1 := dict_set "rule_application_root_versions"
               (VList (map VStr ids ++ [VStr v])) d) in *.
  destruct (root_version_update_run e tid
              (fun msg => "Error adding root version: " ++ msg)%string
              (Push "rule_application_root_versions" (VStr v))
              w id d d1 F I H eq_refl U1) as (w1 & E1 & H1 & _).
  rewrite N1 in E1.
  set (kept := filter (fun x => negb (String.eqb x v)) ids).
  set (d2 := dict_set "rule_application_root_versions"
               (VList (map VStr kept)) d1).
  assert (G1 : dict_get "rule_application_root_versions" d1
               = Some (VList (map VStr (ids ++ [v])))).
  { subst d1. rewrite dict_get_set_same, map_app. reflexivity. }
  assert (U2 : apply_update
                 (Pull "rule_application_root_versions" (VStr v)) d1
               = Some d2).
  { unfold apply_update.
    rewrite G1, filter_version_ids, filter_drops_appended.
    now apply apply_update_other_key. }
  destruct (root_version_update_run e' tid
              (fun msg => "Error removing root version: " ++ msg)%string
              (Pull "rule_application_root_versions" (VStr v))
              w1 id d1 d2 F' I H1 eq_refl U2) as (w2 & E2 & H2 & _).
  assert (N2 : dict_eqb d2 d1 = false).
  { apply dict_eqb_differs with (k := "rule_application_root_versions").
    subst d2. rewrite dict_get_set_same, G1. intros X. injection X as X.
    apply map_VStr_injective in X.
    apply (f_equal (@List.length string)) in X.
    pose proof (filter_length_le (fun x => negb (String.eqb x v)) ids) as L.
    fold kept in L. rewrite length_app in X. simpl in X. lia. }
  rewrite N2 in E2.
  exists w1, w2, d2.
  split; [exact E1|]. split; [exact E2|]. split; [exact H2|]. split.
  - subst d2. apply dict_get_set_same.
  - intros k K. subst d2 d1. now rewrite !dict_get_set_other by auto.
Qed.

Lemma add_then_remove_root_version_witness :
  exists (w1 w2 : world) (d2 : dict),
    add_rule_application_root_version quiet_env sample_id "v1" sample_world
    = (Return true, w1)
    /\ remove_rule_application_root_version quiet_env sample_id "v1" w1
       = (Return true, w2)
    /\ find (matches "_id" (VOid (Oid sample_id))) (transactions w2) = Some d2
    /\ dict_get "rule_application_root_versions" d2
       = Some (VList [VStr "v2"]).
Proof.
  destruct (add_then_remove_root_version quiet_env quiet_env sample_id "v1"
              sample_world (Oid sample_id) sample_transaction
              ["v1"; "v2"; "v1"])
    as (w1 & w2 & d2 & A & B & C & D & _); try reflexivity.
  exists w1, w2, d2. auto.
Defined.

(** ** Listing an owner's transactions *)

Lemma matches_has_field (field : string) (q : value) (d : dict) :
  matches field q d = true -> exists v, dict_get field d = Some v.
Proof.
  unfold matches. destruct (dict_get field d) as [v|]; [eauto|discriminate].
Qed.

(** The loop body on a document with an ["_id"] and a ["user_id"]: it
    returns an entry, with the two fields as strings and every field but
    these and ["base_file_location"] as stored. *)
Lemma list_entry_returns (e : env) (d : dict) (i u : value) :
  dict_get "_id" d = Some i ->
  dict_get "user_id" d = Some u ->
  exists t,
    list_entry e d = Return t
    /\ dict_get "_id" t = Some (VStr (py_str e i))
    /\ dict_get "user_id" t = Some (VStr (py_str e u))
    /\ (forall k, k <> "_id" -> k <> "user_id" ->
          k <> "base_file_location" -> dict_get k t = dict_get k d).
Proof.
  intros I U. unfold list_entry, getitem. rewrite I.
  rewrite dict_get_set_other, U by discriminate.
  set (t2 := dict_set "user_id" _ _).
  assert (A : dict_get "_id" t2 = Some (VStr (py_str e i))).
  { subst t2. rewrite dict_get_set_other by discriminate.
    apply dict_get_set_same. }
  assert (B : dict_get "user_id" t2 = Some (VStr (py_str e u)))
    by apply dict_get_set_same.
  assert (C : forall k, k <> "_id" -> k <> "user_id" ->
                dict_get k t2 = dict_get k d).
  { intros k K1 K2. subst t2. now rewrite !dict_get_set_other. }
  assert (S : forall x,
             dict_get "_id" (dict_set "base_file_location" x t2)
             = Some (VStr (py_str e i))
             /\ dict_get "user_id" (dict_set "base_file_location" x t2)
                = Some (VStr (py_str e u))
             /\ (forall k, k <> "_id" -> k <> "user_id" ->
                   k <> "base_file_location" ->
                   dict_get k (dict_set "base_file_location" x t2)
                   = dict_get k d)).
  { intros x. rewrite !dict_get_set_other by discriminate.
    repeat split; auto. intros k K1 K2 K3.
    rewrite dict_get_set_other; auto. }
  destruct (truthy (dict_get_default "base_file" VNone t2)) eqn:T.
  - unfold dict_get_default in T |- *.
    destruct (dict_get "base_file" t2) as [b|]; [|discriminate].
    destruct (get_version e b) as [version|].
    + destruct (truthy (VDict version)); eexists; split;
        try reflexivity; auto.
    + eexists; split; [reflexivity|]. auto.
  - eexists; split; [reflexivity|]. apply S.
Qed.

Lemma list_entries_return (e : env) (q : value) (docs : list dict) :
  forallb has_id docs = true ->
  exists l,
    list_entries e (filter (matches "user_id" q) docs) = Return l.
Proof.
  induction docs as [|d docs IH]; cbn [forallb filter].
  - intros _. now exists [].
  - intros H. apply andb_true_iff in H as [H1 H2].
    destruct (IH H2) as (l & L).
    destruct (matches "user_id" q d) eqn:M; [|eauto].
    unfold has_id in H1.
    destruct (dict_get "_id" d) as [i|] eqn:I; [|discriminate].
    destruct (matches_has_field _ _ _ M) as (u & U).
    destruct (list_entry_returns e d i u I U) as (t & T & _).
    exists (t :: l). cbn [list_entries]. now rewrite T, L.
Qed.

(** X11.  [get_transactions_by_user], for an owner identifier of 24
    hexadecimal digits, on a store that answers: it returns one entry for
    each stored transaction whose ["user_id"] answers to the owner, in
    stored order, and leaves the store as it was.  An entry has the stored ["_id"] and
    ["user_id"] as strings and every other stored field unchanged; its
    ["base_file_location"] is the empty string when ["base_file"] is unset
    (missing, [None] or empty), the ["files_path"] of the version found (the
    empty string when the record has none) when the lookup finds a record,
    and whatever the document stored -- nothing, as a rule -- when the
    lookup finds none. *)
Theorem listing_describes_the_owners_transactions (e : env)
    (user_id : string) (w : world) (uid : oid) :
  ObjectId user_id = Return uid ->
  fault e = None ->
  forallb has_id (transactions w) = true ->
  exists l : list dict,
    get_transactions_by_user e user_id w = (Return l, w)
    /\ Forall2
         (fun d t =>
            (forall i, dict_get "_id" d = Some i ->
               dict_get "_id" t = Some (VStr (py_str e i)))
            /\ (forall u, dict_get "user_id" d = Some u ->
                  dict_get "user_id" t = Some (VStr (py_str e u)))
            /\ (forall k, k <> "_id" -> k <> "user_id" ->
                  k <> "base_file_location" -> dict_get k t = dict_get k d)
            /\ let base_file := dict_get_default "base_file" VNone d in
               (truthy base_file = false ->
                dict_get "base_file_location" t = Some (VStr ""))
               /\ (forall version,
                     truthy base_file = true ->
                     get_version e base_file = Some version ->
                     truthy (VDict version) = true ->
                     dict_get "base_file_location" t
                     = Some (dict_get_default "files_path" (VStr "") version))
               /\ (truthy base_file = true ->
                   get_version e base_file = None ->
                   dict_get "base_file_location" t
                   = dict_get "base_file_location" d))
         (filter (matches "user_id" (VOid uid)) (transactions w)) l.
Proof.
  intros I F H.
  destruct (list_entries_return e (VOid uid) _ H) as (l & L).
  exists l. split.
  - unfold get_transactions_by_user, try_except, find_all, store_call, bind,
      lift, ret.
    rewrite I, F, encode_owner_filter. cbn iota. now rewrite L.
  - apply list_entries_pointwise in L.
    induction L as [|d t docs l T L IH]; constructor; auto.
    pose proof (list_entry_location e d t T) as P.
    unfold list_entry, getitem in T.
    destruct (dict_get "_id" d) as [i|] eqn:Di; [|discriminate].
    rewrite dict_get_set_other in T by discriminate.
    destruct (dict_get "user_id" d) as [u|] eqn:Du; [|discriminate].
    destruct (list_entry_returns e d i u Di Du) as (t' & T' & A & B & C).
    unfold list_entry, getitem in T'. rewrite Di in T'.
    rewrite dict_get_set_other, Du in T' by discriminate.
    rewrite T in T'. injection T' as <-.
    split; [intros ? X; injection X as <-; exact A|].
    split; [intros ? X; injection X as <-; exact B|].
    split; [exact C | exact P].
Qed.

Lemma listing_describes_the_owners_transactions_witness :
  exists t : dict,
    get_transactions_by_user version_env sample_owner sample_world
    = (Return [t], sample_world)
    /\ dict_get "_id" t = Some (VStr sample_id)
    /\ dict_get "base_file_location" t = Some (VStr "/data/v9.csv").
Proof.
  destruct (listing_describes_the_owners_transactions version_env
              sample_owner sample_world (Oid sample_owner))
    as (l & E & L); try reflexivity.
  change (filter (matches "user_id" (VOid (Oid sample_owner)))
            (transactions sample_world)) with [sample_transaction] in L.
  inversion L as [|d t ds ts (A & _ & _ & _ & B & _) L']; subst.
  inversion L'; subst.
  exists t. split; [exact E|]. split.
  - exact (A _ eq_refl).
  - exact (B _ eq_refl eq_refl eq_refl).
Defined.

Lemma list_entries_app (e : env) (a b la lb : list dict) :
  list_entries e a = Return la ->
  list_entries e b = Return lb ->
  list_entries e (a ++ b) = Return (la ++ lb).
Proof.
  revert la. induction a as [|d a IH]; intros la; cbn [list_entries app].
  - intros E. injection E as <-. auto.
  - destruct (list_entry e d) as [t|]; [|discriminate].
    destruct (list_entries e a) as [l|]; [|discriminate].
    intros E B. injection E as <-. now rewrite (IH l eq_refl B).
Qed.

(** X12.  A transaction just created is listed for its owner.  When
    [create_transaction] succeeds (owner identifier of 24 hexadecimal
    digits, store that answers, generated identifier unused), the owner's
    listing afterwards is the owner's listing before followed by one entry
    for the new transaction, with the identifier [create_transaction]
    returned, the name given, and the empty string as
    ["base_file_location"]. *)
Theorem created_transaction_is_listed (e e' : env) (w : world)
    (user_id name base_file_path : string) (c1 c2 : option string)
    (uid : oid) :
  ObjectId user_id = Return uid ->
  fault e = None ->
  fault e' = None ->
  existsb (matches "_id" (VOid (fresh_oid e))) (transactions w) = false ->
  forallb has_id (transactions w) = true ->
  exists (w1 : world) (l : list dict) (t : dict),
    create_transaction e user_id name base_file_path c1 c2 w
    = (Return (Some (oid_hex (fresh_oid e))), w1)
    /\ get_transactions_by_user e' user_id w = (Return l, w)
    /\ get_transactions_by_user e' user_id w1 = (Return (l ++ [t]), w1)
    /\ dict_get "_id" t = Some (VStr (oid_hex (fresh_oid e)))
    /\ dict_get "user_id" t = Some (VStr (oid_hex uid))
    /\ dict_get "name" t = Some (VStr name)
    /\ dict_get "base_file_location" t = Some (VStr "").
Proof.
  intros I F F' N H.
  destruct (list_entries_return e' (VOid uid) _ H) as (l & L).
  assert (G : forall docs lst,
             list_entries e' (filter (matches "user_id" (VOid uid)) docs)
             = Return lst ->
             get_transactions_by_user e' user_id
               (mkWorld docs (logged w) (heap w))
             = (Return lst, mkWorld docs (logged w) (heap w))).
  { intros docs lst E.
    unfold get_transactions_by_user, try_except, find_all, store_call, bind,
      lift, ret.
    rewrite I, F', encode_owner_filter. cbn [transactions]. cbn iota.
    now rewrite E. }
  unfold create_transaction, try_except, insert_one, store_call, bind, lift,
    ret.
  rewrite I, F.
  assert (M : matches "user_id" (VOid uid)
                [("user_id", VOid uid)] = true).
  { unfold matches. cbn [dict_get String.eqb Ascii.eqb Bool.eqb].
    now rewrite value_eqb_refl. }
  destruct c1 as [c1|], c2 as [c2|];
    cbn [dict_set add_timestamps String.eqb Ascii.eqb Bool.eqb dict_get
         dict_get_default];
    rewrite encodable_fields_encode by reflexivity;
    cbn [String.eqb Ascii.eqb Bool.eqb dict_get dict_get_default];
    rewrite N; unfold set_transactions;
    eexists; exists l; eexists;
    (split; [reflexivity|]);
    (split; [destruct w; apply (G _ _ L)|]);
    (split;
     [apply G; rewrite filter_app; apply (list_entries_app _ _ _ _ _ L);
      cbn [filter]; unfold matches at 1;
      cbn [dict_get String.eqb Ascii.eqb Bool.eqb];
      rewrite value_eqb_refl; cbn [orb]; reflexivity|]);
    repeat split.
Qed.

Lemma created_transaction_is_listed_witness :
  exists (w1 : world) (l : list dict) (t : dict),
    create_transaction quiet_env sample_owner "bonds" "/data" None None
      sample_world
    = (Return (Some other_id), w1)
    /\ get_transactions_by_user quiet_env sample_owner sample_world
       = (Return l, sample_world)
    /\ get_transactions_by_user quiet_env sample_owner w1
       = (Return (l ++ [t]), w1)
    /\ dict_get "_id" t = Some (VStr other_id)
    /\ dict_get "base_file_location" t = Some (VStr "").
Proof.
  destruct (created_transaction_is_listed quiet_env quiet_env sample_world
              sample_owner "bonds" "/data" None None (Oid sample_owner))
    as (w1 & l & t & C & L0 & L1 & A & _ & _ & B); try reflexivity.
  exists w1, l, t. auto.
Defined.

(** ** Deleting twice *)

(** X18.  [delete_transaction] twice with the identifier of a stored
    transaction (the only document with that identifier), on a store that
    answers: the first call returns [True], the second returns [False] and
    changes nothing more. *)
Theorem delete_twice (e e' : env) (tid : string) (w : world) (id : oid) :
  ObjectId tid = Return id ->
  fault e = None ->
  fault e' = None ->
  List.length (filter (matches "_id" (VOid id)) (transactions w)) = 1%nat ->
  exists w1 : world,
    delete_transaction e tid w = (Return true, w1)
    /\ List.length (transactions w1) = pred (List.length (transactions w))
    /\ delete_transaction e' tid w1 = (Return false, w1).
Proof.
  intros I F F' U.
  assert (X : existsb (matches "_id" (VOid id)) (transactions w) = true).
  { destruct (existsb _ _) eqn:X; auto.
    assert (Z : filter (matches "_id" (VOid id)) (transactions w) = []).
    { revert X. generalize (transactions w).
      induction l as [|a l IH]; simpl; auto.
      destruct (matches "_id" (VOid id) a); simpl; [discriminate|auto]. }
    rewrite Z in U. discriminate. }
  destruct (delete_first_removes _ _ X) as (pre & d & post & T & M & D & L).
  assert (N : existsb (matches "_id" (VOid id)) (pre ++ post) = false).
  { rewrite L in U. simpl in U.
    assert (P : filter (matches "_id" (VOid id)) post = []).
    { destruct (filter _ post); [reflexivity | discriminate]. }
    rewrite existsb_app, (existsb_false_of_filter _ _ P), orb_false_r.
    apply existsb_false_of_filter.
    rewrite T, filter_app in L. simpl in L. rewrite M, P in L.
    destruct (filter _ pre) as [|a [|b l]]; [reflexivity|..];
      simpl in L; discriminate. }
  unfold delete_transaction, try_except, delete_one, store_call, bind, lift,
    ret.
  rewrite I, F, F', !encode_id_filter, D.
  eexists. split; [reflexivity|].
  cbn [transactions set_transactions]. split.
  - rewrite T, !length_app. simpl. lia.
  - rewrite (delete_first_absent _ _ N). reflexivity.
Qed.

Lemma delete_twice_witness :
  exists w1 : world,
    delete_transaction quiet_env sample_id sample_world = (Return true, w1)
    /\ List.length (transactions w1) = 0%nat
    /\ delete_transaction quiet_env sample_id w1 = (Return false, w1).
Proof.
  apply (delete_twice quiet_env quiet_env sample_id sample_world
           (Oid sample_id)); reflexivity.
Defined.

(** ** What the driver refuses to encode *)

(** X19.  An integer the store cannot hold is not answered with [False].
    [update_transaction] with a field map that binds one key (not ["_id"],
    ["user_id"] or ["updated_at"], and with no null character) to an integer
    outside 64 bits, for an identifier of 24 hexadecimal digits and a store
    that answers: the [OverflowError] of the driver leaves the method,
    whether or not a transaction has the identifier; nothing is logged and
    nothing is written, and the caller's map has its ["updated_at"]. *)
Theorem update_transaction_overflow_escapes (e : env) (tid : string)
    (r : nat) (w : world) (id : oid) (k : string) (z : Z) :
  nth_error (heap w) r = Some [(k, VInt z)] ->
  k <> "_id" ->
  k <> "user_id" ->
  k <> "updated_at" ->
  has_nul k = false ->
  int64 z = false ->
  fault e = None ->
  ObjectId tid = Return id ->
  exists msg : string,
    update_transaction e tid r w
    = (Raise (OverflowError msg),
       set_heap
         (list_replace r [(k, VInt z); ("updated_at", VDate (now e))]
            (heap w)) w).
Proof.
  intros H K1 K2 K3 N Z F I.
  rewrite (update_transaction_steps e tid r w _ H). cbv zeta.
  rewrite I, F.
  apply not_eq_sym, String.eqb_neq in K1, K2, K3.
  assert (S : stripped_and_stamped e [(k, VInt z)]
              = [(k, VInt z); ("updated_at", VDate (now e))]).
  { unfold stripped_and_stamped, add_timestamps, dict_pop.
    cbn [filter fst]. rewrite K1. cbn [negb filter fst]. rewrite K2.
    cbn [negb dict_set]. now rewrite K3. }
  rewrite S. unfold sent_update. rewrite encode_id_filter.
  cbn [encode_update encode_fields bson_encode]. rewrite N, Z.
  eexists. reflexivity.
Qed.

Lemma update_transaction_overflow_escapes_witness :
  exists msg : string,
    update_transaction quiet_env sample_id 0 overflow_patch_world
    = (Raise (OverflowError msg),
       mkWorld [sample_transaction] []
         [[("version_number", VInt 9223372036854775808);
           ("updated_at", VDate 2000)]]).
Proof.
  apply (update_transaction_overflow_escapes quiet_env sample_id 0
           overflow_patch_world (Oid sample_id) "version_number"
           9223372036854775808); try reflexivity; discriminate.
Defined.

(** X20.  A column name with a null character is not answered with [False]
    either.  [add_new_column_datatype] with such a name, for an identifier
    of 24 hexadecimal digits and a store that answers: the
    [InvalidDocument] of the driver leaves the method; nothing is logged
    and nothing is written. *)
Theorem add_new_column_datatype_null_character_escapes (e : env)
    (tid column datatype : string) (w : world) (id : oid) :
  has_nul column = true ->
  fault e = None ->
  ObjectId tid = Return id ->
  exists msg : string,
    add_new_column_datatype e tid column datatype w
    = (Raise (InvalidDocument msg), w).
Proof.
  intros N F I.
  unfold add_new_column_datatype. rewrite flag_update_steps, I, F.
  unfold sent_update. rewrite encode_id_filter.
  cbn [encode_update encode_fields].
  rewrite has_nul_append, N, orb_true_r.
  eexists. reflexivity.
Qed.

Lemma add_new_column_datatype_null_character_escapes_witness :
  exists msg : string,
    add_new_column_datatype quiet_env sample_id
      (String "r" (String zero "x")) "float" sample_world
    = (Raise (InvalidDocument msg), sample_world).
Proof.
  apply (add_new_column_datatype_null_character_escapes quiet_env sample_id
           (String "r" (String zero "x")) "float" sample_world
           (Oid sample_id)); reflexivity.
Defined.

(** ** Examples of what every method keeps *)

Lemma owners_stay_identifiers_witness :
  forallb owner_is_oid
    (transactions
       (snd (call quiet_env (UpdateTransaction sample_id 0) owner_patch_world)))
  = true.
Proof.
  apply (owners_stay_identifiers quiet_env (UpdateTransaction sample_id 0)
           owner_patch_world).
  reflexivity.
Defined.

Lemma ids_stay_unique_witness :
  ids_unique
    (transactions
       (snd (call quiet_env
               (CreateTransaction sample_owner "bonds" "/data" None None)
               sample_world))).
Proof.
  apply (ids_stay_unique quiet_env
           (CreateTransaction sample_owner "bonds" "/data" None None)
           sample_world).
  intros q. simpl. destruct (matches "_id" q sample_transaction); simpl; lia.
Defined.

Lemma field_writers_refresh_updated_at_witness :
  exists d' : dict,
    find (matches "_id" (VOid (Oid sample_id)))
      (transactions
         (snd (call quiet_env (ChangeTransactionName sample_id "bonds")
                 sample_world)))
    = Some d'
    /\ dict_get "updated_at" d' = Some (VDate 2000).
Proof.
  apply (field_writers_refresh_updated_at quiet_env
           (ChangeTransactionName sample_id "bonds") sample_world
           (Oid sample_id)); [exact I | reflexivity | reflexivity].
Defined.

Lemma writers_keep_created_at_witness :
  map (dict_get "created_at")
    (transactions
       (snd (call quiet_env (UpdateTransaction sample_id 0) sample_world)))
  = [Some (VDate 1000)].
Proof.
  apply (writers_keep_created_at quiet_env (UpdateTransaction sample_id 0)
           sample_world).
  reflexivity.
Defined.
